(** * Levanter data utilities: pseudo-random permutation and audio cache

    A shallow embedding of

    - [levanter/data/_prp.py]: the class [Permutation], a stateless affine
      pseudo-random permutation [p(x) = (a * x + b) % length];
    - [levanter/data/audio.py]: [BatchAudioProcessor.__call__] and the
      [ProcessedAudioCache] wrapper around a [TreeCache].

    The first part of the file holds the definitions, the second part the
    theorems about them. *)

From Stdlib Require Import ZArith List Lia Znumtheory Bool Ascii.
From stdpp Require Import base list gmap strings.
Import ListNotations.

Local Open Scope Z_scope.

(* ===================================================================== *)
(** * Part I: definitions                                                 *)
(* ===================================================================== *)

(** ** [levanter/data/_prp.py] *)
Module Prp.

(** Integer element types of the arrays [__call__] dispatches on.  A
    [jnp.ndarray] of indices is [int32] unless 64-bit mode is switched on, a
    [np.ndarray] is [int64] by default and [int32] on request. *)
Inductive dtype : Type := int32 | int64.

Definition bits (d : dtype) : Z :=
  match d with int32 => 32 | int64 => 64 end.

(** Two's complement wrap-around of the exact integer [z] into the range of
    [d]: what array arithmetic stores when a result does not fit. *)
Definition wrap (d : dtype) (z : Z) : Z :=
  (z + 2 ^ (bits d - 1)) mod 2 ^ bits d - 2 ^ (bits d - 1).

(** The argument of [__call__]: a Python [int], a [jnp.ndarray] or a
    [np.ndarray] (kept as the flat sequence of its elements). *)
Inductive indices : Type :=
| Scalar (i : Z)
| JnpArray (d : dtype) (xs : list Z)
| NpArray (d : dtype) (xs : list Z).

(** The elements an argument carries. *)
Definition elems (ix : indices) : list Z :=
  match ix with
  | Scalar i => [i]
  | JnpArray _ xs => xs
  | NpArray _ xs => xs
  end.

(** [IndexError(f"index {indices} is out of bounds for length {self.length}")]. *)
Inductive error : Type :=
| IndexError (ix : indices) (len : Z).

Inductive result (A : Type) : Type :=
| Ok (a : A)
| Raise (e : error).
Arguments Ok {A} a.
Arguments Raise {A} e.

(** [jax.lax.while_loop(cond_fun, body_fun, init_val)]:
    [val = init_val; while cond_fun(val): val = body_fun(val); return val].
    [fuel] bounds the number of iterations; [None] is "still looping". *)
Fixpoint while_loop {S : Type} (fuel : nat) (cond_fun : S -> bool)
    (body_fun : S -> S) (val : S) : option S :=
  match fuel with
  | O => if cond_fun val then None else Some val
  | Datatypes.S fuel' =>
      if cond_fun val then while_loop fuel' cond_fun body_fun (body_fun val)
      else Some val
  end.

Section Permutation.

(** The PRNG of [jax.random] is used through two functions:
    [split key] gives two new keys, and [randint key () minval maxval]
    one integer drawn with [key]. *)
Context {Key : Type}.
Variable split : Key -> Key * Key.
Variable randint : Key -> Z -> Z -> Z.

Record Permutation : Type := {
  length : Z;
  prng_key : Key;
  _a : Z;
  _b : Z
}.

(** [cond = lambda a_and_key: jnp.all(jnp.gcd(a_and_key[0], length) != 1)] *)
Definition cond (length : Z) (a_and_key : Z * Key) : bool :=
  negb (Z.gcd (fst a_and_key) length =? 1).

Definition loop_body (length : Z) (a_and_key : Z * Key) : Z * Key :=
  let '(a, key) := a_and_key in
  let '(this_key, key) := split key in
  let a := randint this_key 1 length in
  (a, key).

(** [Permutation.__init__(self, length, prng_key)]; [None] when the
    resampling loop has not left after [fuel] iterations. *)
Definition __init__ (fuel : nat) (length : Z) (prng_key : Key)
    : option Permutation :=
  let '(a_key, b_key) := split prng_key in
  let a := randint a_key 1 length in
  let b := randint b_key 0 length in
  match while_loop fuel (cond length) (loop_body length) (a, a_key) with
  | Some (a, key) =>
      Some {| length := length; prng_key := prng_key; _a := a; _b := b |}
  | None => None
  end.

(** The three bound checks of [__call__], one per operand type.  On an
    array the comparisons are made in its element type; they are the
    comparisons of integers written here when [self.length] is representable
    in that type, which is the case the statements about arrays are made
    for. *)
Definition out_of_bounds (self : Permutation) (ix : indices) : bool :=
  match ix with
  | JnpArray _ xs =>
      existsb (fun x => x <? 0) xs || existsb (fun x => x >=? length self) xs
  | NpArray _ xs =>
      existsb (fun x => x <? 0) xs || existsb (fun x => x >=? length self) xs
  | Scalar i => (i <? 0) || (i >=? length self)
  end.

(** [(self._a * x + self._b) % self.length] on exact Python integers. *)
Definition affine_int (self : Permutation) (x : Z) : Z :=
  (_a self * x + _b self) mod length self.

(** The same expression on one element of an array of type [d]: the product
    and the sum are stored in [d].  The operands [self._a], [self._b] and
    [self.length] enter as elements of [d], so this is the value computed
    when the three are representable in [d]; the statements about arrays
    are made for that case. *)
Definition affine_elt (d : dtype) (self : Permutation) (x : Z) : Z :=
  wrap d (wrap d (wrap d (_a self * x) + _b self) mod length self).

(** [(self._a * indices + self._b) % self.length] *)
Definition affine (self : Permutation) (ix : indices) : indices :=
  match ix with
  | Scalar i => Scalar (affine_int self i)
  | JnpArray d xs => JnpArray d (map (affine_elt d self) xs)
  | NpArray d xs => NpArray d (map (affine_elt d self) xs)
  end.

(** [Permutation.__call__(self, indices)] *)
Definition __call__ (self : Permutation) (ix : indices) : result indices :=
  if out_of_bounds self ix then Raise (IndexError ix (length self))
  else Ok (affine self ix).

End Permutation.

Arguments Permutation Key : clear implicits.

(** [range(length)] as Python integers. *)
Definition range (n : Z) : list Z := map Z.of_nat (seq 0 (Z.to_nat n)).

(** Two generators with the interface of [jax.random], used to run the
    definitions on concrete inputs.  Keys are integers.  [lcg_randint] is
    spread over the whole interval; [stuck_randint] always answers [minval + 1]. *)
Definition lcg_split (k : Z) : Z * Z := (2 * k + 1, 2 * k + 2).

Definition lcg_randint (k minval maxval : Z) : Z :=
  if minval <? maxval then minval + (k * 7 + 3) mod (maxval - minval) else minval.

Definition stuck_randint (k minval maxval : Z) : Z :=
  if minval + 1 <? maxval then minval + 1 else minval.

End Prp.

(** ** [levanter/data/audio.py] *)
Module Audio.

Local Open Scope string_scope.

(** The exceptions the module raises or lets through. *)
Inductive exn : Type :=
| FileNotFoundError (msg : string)
| CorruptionError (msg : string)
| AssertionError (msg : string)
| ValueError (msg : string)
| IndexError (msg : string)
| OtherError (cls msg : string).

Inductive result (A : Type) : Type :=
| Ok (a : A)
| Raise (e : exn).
Arguments Ok {A} a.
Arguments Raise {A} e.

Definition is_FileNotFoundError (e : exn) : bool :=
  match e with FileNotFoundError _ => true | _ => false end.

(** *** [BatchAudioProcessor] *)

Section BatchAudioProcessor.

(** External collaborators: the raw audio array, one row of extracted
    features, the HuggingFace processor with its feature extractor, the
    tokenizer, and the resource description handed on to the tokenizer. *)
Context {Audio Features ProcessorMixin FeatureExtractor Tokenizer Resources : Type}.

(** [AudioTextDict] *)
Record AudioTextDict : Type := {
  input_features : Features;
  input_ids : list Z;
  attention_mask : list Z
}.

(** One entry of the list [BatchTokenizer.__call__] returns. *)
Record TextFeatures : Type := {
  tf_input_ids : list Z;
  tf_attention_mask : list Z
}.

(** [BatchTokenizer], as configured by [BatchAudioProcessor.__init__];
    [padding] is ["max_length"] or [False]. *)
Record BatchTokenizer : Type := {
  bt_tokenizer : Tokenizer;
  bt_enforce_bos : bool;
  bt_enforce_eos : bool;
  bt_batch_size : Z;
  bt_override_resources : option Resources;
  bt_return_attention_mask : bool;
  bt_padding : option string;
  bt_max_length : Z
}.

Record BatchAudioProcessor : Type := {
  feature_extractor : FeatureExtractor;
  bt : BatchTokenizer;
  override_resources : option Resources;
  _batch_size : Z
}.

(** [processor.feature_extractor], the call of a feature extractor
    ([input_features] of the [BatchFeature] it returns, one row per audio)
    and the call of a [BatchTokenizer]. *)
Variable feature_extractor_of : ProcessorMixin -> FeatureExtractor.
Variable extract_features : FeatureExtractor -> list Audio -> Z -> result (list Features).
Variable tokenize : BatchTokenizer -> list string -> result (list TextFeatures).

(** [BatchAudioProcessor.__init__] *)
Definition BatchAudioProcessor_init (processor : ProcessorMixin) (tokenizer : Tokenizer)
    (enforce_bos enforce_eos : bool) (batch_size : Z)
    (override_resources : option Resources) (max_length : Z) (padding : bool)
    : BatchAudioProcessor :=
  {| feature_extractor := feature_extractor_of processor;
     bt := {| bt_tokenizer := tokenizer;
              bt_enforce_bos := enforce_bos;
              bt_enforce_eos := enforce_eos;
              bt_batch_size := batch_size;
              bt_override_resources := override_resources;
              bt_return_attention_mask := true;
              bt_padding := if padding then Some "max_length" else None;
              bt_max_length := max_length |};
     override_resources := override_resources;
     _batch_size := batch_size |}.

(** What [__call__] asks of its collaborators, in order. *)
Inductive event : Type :=
| FeatureExtraction (audio_batch : list Audio) (sampling_rate : Z)
| Tokenization (text_batch : list string).

(** [set.pop()]: an element of the set, [None] for [KeyError] on the
    empty set. *)
Definition set_pop (s : gset Z) : option Z := head (elements s).

(** The loop that debatches: entry [i] of the output pairs row [i] of the
    audio features with the [i]-th tokenized text. *)
Fixpoint debatch (audio_features : list Features) (i : nat)
    (text_features : list TextFeatures) : result (list AudioTextDict) :=
  match text_features with
  | [] => Ok []
  | text :: rest =>
      match audio_features !! i with
      | None => Raise (IndexError "index out of bounds")
      | Some row =>
          match debatch audio_features (S i) rest with
          | Ok out =>
              Ok ({| input_features := row;
                     input_ids := tf_input_ids text;
                     attention_mask := tf_attention_mask text |} :: out)
          | Raise e => Raise e
          end
      end
  end.

(** [np.array(xs, dtype=np.int32)] of a list of Python integers: an integer
    outside the range of [int32] raises [OverflowError]. *)
Definition int32_array (xs : list Z) : result (list Z) :=
  if forallb (fun x : Z => (- 2 ^ 31 <=? x)%Z && (x <? 2 ^ 31)%Z) xs then Ok xs
  else Raise (OtherError "OverflowError" "Python integer out of bounds for int32").

(** [[{k: np.array(tf[k], dtype=np.int32) for k in ["input_ids", "attention_mask"]}
      for tf in text_features]] *)
Fixpoint int32_text_features (text_features : list TextFeatures)
    : result (list TextFeatures) :=
  match text_features with
  | [] => Ok []
  | tf :: rest =>
      match int32_array (tf_input_ids tf) with
      | Raise e => Raise e
      | Ok ids =>
          match int32_array (tf_attention_mask tf) with
          | Raise e => Raise e
          | Ok mask =>
              match int32_text_features rest with
              | Raise e => Raise e
              | Ok rest' =>
                  Ok ({| tf_input_ids := ids; tf_attention_mask := mask |} :: rest')
              end
          end
      end
  end.

(** The body of [__call__] below the assertion. *)
Definition extract_and_tokenize (self : BatchAudioProcessor)
    (audio_batch : list Audio) (sampling_rate : Z) (text_batch : list string)
    : list event * result (list AudioTextDict) :=
  match extract_features (feature_extractor self) audio_batch sampling_rate with
  | Raise e => ([FeatureExtraction audio_batch sampling_rate], Raise e)
  | Ok audio_features =>
      match tokenize (bt self) text_batch with
      | Raise e =>
          ([FeatureExtraction audio_batch sampling_rate; Tokenization text_batch],
           Raise e)
      | Ok text_features =>
          ([FeatureExtraction audio_batch sampling_rate; Tokenization text_batch],
           match int32_text_features text_features with
           | Raise e => Raise e
           | Ok text_features => debatch audio_features 0 text_features
           end)
      end
  end.

(** [BatchAudioProcessor.__call__(self, batch)]: the calls made to the
    collaborators and the outcome.  [list(zip( *batch))] of an empty batch
    is empty and cannot be unpacked into three names. *)
Definition __call__ (self : BatchAudioProcessor) (batch : list (Audio * Z * string))
    : list event * result (list AudioTextDict) :=
  match batch with
  | [] => ([], Raise (ValueError "not enough values to unpack (expected 3, got 0)"))
  | _ :: _ =>
      let audio_batch := map (fun item => fst (fst item)) batch in
      let sampling_rates := map (fun item => snd (fst item)) batch in
      let text_batch := map snd batch in
      let uniq_sampling_rates : gset Z := list_to_set sampling_rates in
      if decide (size uniq_sampling_rates = 1%nat) then
        match set_pop uniq_sampling_rates with
        | Some sampling_rate =>
            extract_and_tokenize self audio_batch sampling_rate text_batch
        | None => ([], Raise (OtherError "KeyError" "pop from an empty set"))
        end
      else ([], Raise (AssertionError "Sampling rates should be standardized"))
  end.

End BatchAudioProcessor.

Arguments AudioTextDict Features : clear implicits.
Arguments BatchTokenizer Tokenizer Resources : clear implicits.
Arguments BatchAudioProcessor FeatureExtractor Tokenizer Resources : clear implicits.
Arguments event Audio : clear implicits.

(** *** [ProcessedAudioCache] *)

(** Code that reads or changes the world outside (the file system, the event
    loop, the log) and may raise: a state and error monad over the world. *)
Definition M (World A : Type) : Type := World -> result A * World.

Definition ret {World A : Type} (a : A) : M World A := fun w => (Ok a, w).

Definition raise {World A : Type} (e : exn) : M World A := fun w => (Raise e, w).

Definition bind {World A B : Type} (m : M World A) (k : A -> M World B) : M World B :=
  fun w =>
    match m w with
    | (Ok a, w') => k a w'
    | (Raise e, w') => (Raise e, w')
    end.

(** [try: body except ...: handler] *)
Definition try_except {World A : Type} (body : M World A) (handler : exn -> M World A)
    : M World A :=
  fun w =>
    match body w with
    | (Ok a, w') => (Ok a, w')
    | (Raise e, w') => handler e w'
    end.

(** [AsyncDataset]: the capability set of a dataset.  [await d.method()] runs
    the method in the monad. *)
Class AsyncDataset (World D Ex : Type) : Type := {
  async_len : D -> M World Z;
  final_length_is_known : D -> M World bool;
  is_finite : D -> M World bool;
  current_len : D -> M World (option Z);
  get_batch : D -> list Z -> M World (list Ex)
}.

(** What may sit at a cache directory. *)
Inductive ledger (TreeCache : Type) : Type :=
| NoLedger
| UnreadableLedger
| Ledger (cache : TreeCache).
Arguments NoLedger {TreeCache}.
Arguments UnreadableLedger {TreeCache}.
Arguments Ledger {TreeCache} cache.

Section ProcessedAudioCache.

Context {World TreeCache Features Source ProcessorMixin FeatureExtractor
         Tokenizer Resources Monitor : Type}.

Local Abbreviation AudioTextDict := (AudioTextDict Features).
Local Abbreviation BatchAudioProcessor :=
  (BatchAudioProcessor FeatureExtractor Tokenizer Resources).

(** [TreeCache] is an [AsyncDataset] of [AudioTextDict]. *)
Context {TreeCache_dataset : AsyncDataset World TreeCache AudioTextDict}.

(** [np.zeros((1, 1), dtype=np.float32)] *)
Variable zeros_1_1 : Features.

Definition AudioTextDict_exemplar : AudioTextDict :=
  {| input_features := zeros_1_1; input_ids := []; attention_mask := [] |}.

(** [levanter.store.cache]: [TreeCache.load], [build_or_load_cache] and the
    property [is_finished]; the logger. *)
Variable TreeCache_load : string -> AudioTextDict -> M World TreeCache.
Variable build_or_load_cache :
  string -> Source -> BatchAudioProcessor -> bool -> list Monitor -> M World TreeCache.
Variable is_finished : TreeCache -> World -> bool.
Variable logger_info : string -> World -> World.
Variable logger_exception : string -> World -> World.
Variable feature_extractor_of : ProcessorMixin -> FeatureExtractor.

Record ProcessedAudioCache : Type := { cache : TreeCache }.

Definition ProcessedAudioCache_async_len (self : ProcessedAudioCache) : M World Z :=
  bind (async_len (cache self)) (fun n => ret n).

Definition ProcessedAudioCache_final_length_is_known (self : ProcessedAudioCache)
    : M World bool :=
  bind (final_length_is_known (cache self)) (fun known => ret known).

Definition ProcessedAudioCache_is_finite (self : ProcessedAudioCache) : M World bool :=
  is_finite (cache self).

Definition ProcessedAudioCache_current_len (self : ProcessedAudioCache)
    : M World (option Z) :=
  bind (current_len (cache self)) (fun n => ret n).

Definition ProcessedAudioCache_get_batch (self : ProcessedAudioCache)
    (indices : list Z) : M World (list AudioTextDict) :=
  bind (get_batch (cache self) indices) (fun batch => ret batch).

#[export] Instance ProcessedAudioCache_dataset
    : AsyncDataset World ProcessedAudioCache AudioTextDict := {|
  async_len := ProcessedAudioCache_async_len;
  final_length_is_known := ProcessedAudioCache_final_length_is_known;
  is_finite := ProcessedAudioCache_is_finite;
  current_len := ProcessedAudioCache_current_len;
  get_batch := ProcessedAudioCache_get_batch
|}.

(** [monitors or []] *)
Definition monitors_or_empty (monitors : option (list Monitor)) : list Monitor :=
  match monitors with
  | Some (m :: ms) => m :: ms
  | _ => []
  end.

(** [ProcessedAudioCache.build_or_load] *)
Definition build_or_load (cache_dir : string) (source : Source)
    (processor : ProcessorMixin) (tokenizer : Tokenizer)
    (enforce_bos enforce_eos : bool) (batch_size : Z)
    (monitors : option (list Monitor)) (await_finished : bool)
    (override_resources : option Resources) (max_length : Z)
    : M World ProcessedAudioCache :=
  let bp :=
    BatchAudioProcessor_init feature_extractor_of processor tokenizer
      enforce_bos enforce_eos batch_size override_resources max_length true in
  let monitors := monitors_or_empty monitors in
  bind (build_or_load_cache cache_dir source bp await_finished monitors)
    (fun cache w =>
     if is_finished cache w
     then (Ok (Build_ProcessedAudioCache cache),
           logger_info ("Cache " ++ cache_dir ++ " is complete.") w)
     else (Ok (Build_ProcessedAudioCache cache),
           logger_info ("Cache " ++ cache_dir
                        ++ " is incomplete. This will block until at least one chunk per process is complete.") w)).

(** [ProcessedAudioCache.load] *)
Definition load (cache_dir : string) : M World ProcessedAudioCache :=
  try_except
    (bind (TreeCache_load cache_dir AudioTextDict_exemplar)
       (fun cache => ret (Build_ProcessedAudioCache cache)))
    (fun e =>
       if is_FileNotFoundError e
       then raise (FileNotFoundError (cache_dir ++ " is not a complete cache"))
       else fun w => (Raise e, logger_exception "error loading cache" w)).

(** Modelled from the spec: [TreeCache.load] of [levanter.store.cache], which
    is not among the sources.  It opens an existing durable cache without
    a source or processor, fails with a not-found error if no ledger exists
    at the path, and fails with a corruption error if the ledger is present
    but unreadable.  [ledger_at w path] is what the world [w] holds at
    [path]. *)
Definition TreeCache_load_spec (ledger_at : World -> string -> ledger TreeCache)
    (path : string) (exemplar : AudioTextDict) : M World TreeCache :=
  fun w =>
    match ledger_at w path with
    | NoLedger => (Raise (FileNotFoundError path), w)
    | UnreadableLedger => (Raise (CorruptionError path), w)
    | Ledger cache => (Ok cache, w)
    end.

End ProcessedAudioCache.

Arguments ProcessedAudioCache TreeCache : clear implicits.

(** *** Small collaborators to run the definitions on

    A feature extractor that maps an audio clip (a list of samples) to the
    pair of its sampling rate and its number of samples, a tokenizer that
    maps a text to its length, and a world made of the ledgers found under
    each directory and of the lines logged so far; caches are numbered. *)
Definition toy_extract (fe : unit) (audio_batch : list (list Z)) (sampling_rate : Z)
    : result (list (Z * Z)) :=
  Ok (map (fun audio => (sampling_rate, Z.of_nat (Datatypes.length audio))) audio_batch).

Definition toy_tokenize (bt : BatchTokenizer unit unit) (text_batch : list string)
    : result (list TextFeatures) :=
  Ok (map (fun text => {| tf_input_ids := [Z.of_nat (String.length text)];
                          tf_attention_mask := [1] |}) text_batch).

Definition toy_processor : BatchAudioProcessor unit unit unit :=
  BatchAudioProcessor_init (fun _ : unit => tt) tt tt true true 128 None 448 true.

Definition toy_world : Type := gmap string (ledger nat) * list string.

Definition toy_ledger_at (w : toy_world) (path : string) : ledger nat :=
  match fst w !! path with
  | Some l => l
  | None => NoLedger
  end.

Definition toy_logger (msg : string) (w : toy_world) : toy_world :=
  (fst w, (snd w ++ [msg])%list).

Definition toy_disk : toy_world :=
  (<["cache/train" := Ledger 7%nat]> (<["cache/broken" := UnreadableLedger]> ∅), []).

End Audio.

(** ** The stream of multipliers drawn by [Permutation.__init__] *)
Module PrpDraws.
Import Prp.

(** The state [(a, key)] of the resampling loop after [m] passes through
    its body: the first draw is made with [a_key], every later one with a
    key split off the running key. *)
Definition draw {Key : Type} (split : Key -> Key * Key)
    (randint : Key -> Z -> Z -> Z) (n : Z) (key : Key) (m : nat) : Z * Key :=
  Nat.iter m (loop_body split randint n)
    (randint (fst (split key)) 1 n, fst (split key)).

End PrpDraws.

(** ** [levanter/data/audio.py]: the dataset configuration classes *)
Module AudioConfig.
Import Audio.

Local Open Scope string_scope.

(** [AudioDatasetSourceConfig] *)
Record AudioDatasetSourceConfig : Type := {
  id : option string;
  name : option string;
  plaintext : bool;
  stream : bool;
  text_key : string;
  audio_key : string;
  sampling_rate : Z;
  train_urls : list string;
  validation_urls : list string
}.

(** [AudioTaskConfig] *)
Record AudioTaskConfig : Type := {
  processor : string;
  tokenizer : option string;
  train_split : string;
  validation_split : string;
  cache_dir : string;
  enforce_bos : bool;
  enforce_eos : bool;
  max_length : Z
}.

(** [AudioIODatasetConfig(AudioDatasetSourceConfig, AudioTaskConfig)] *)
Record AudioIODatasetConfig : Type := {
  source_config : AudioDatasetSourceConfig;
  task_config : AudioTaskConfig
}.

(** The sources [get_shard_source] builds: a [WrappedHFDataSource] mapped
    with [decode], which reads the two keys and the sampling rate of the
    configuration, or an [AudioTextUrlDataSource]. *)
Inductive ShardedDataSource (HFDataSource : Type) : Type :=
| MappedHFDataSource (ds : HFDataSource) (text_key audio_key : string) (sampling_rate : Z)
| AudioTextUrlDataSource (urls : list string) (text_key audio_key : string)
    (sampling_rate : Z).
Arguments MappedHFDataSource {HFDataSource} ds text_key audio_key sampling_rate.
Arguments AudioTextUrlDataSource {HFDataSource} urls text_key audio_key sampling_rate.

(** The monitors [build_or_load_cache] installs by default, and any other
    monitor a caller passes. *)
Inductive MetricsMonitor (UserMonitor : Type) : Type :=
| LoggingMetricsMonitor (prefix : string) (commit : bool)
| LoggerMetricsMonitor (logger_name : string)
| OtherMonitor (m : UserMonitor).
Arguments LoggingMetricsMonitor {UserMonitor} prefix commit.
Arguments LoggerMetricsMonitor {UserMonitor} logger_name.
Arguments OtherMonitor {UserMonitor} m.

(** The argument [monitors: Union[bool, List[MetricsMonitor]]]. *)
Inductive monitors_arg (UserMonitor : Type) : Type :=
| MonitorsBool (b : bool)
| MonitorsList (l : list (MetricsMonitor UserMonitor)).
Arguments MonitorsBool {UserMonitor} b.
Arguments MonitorsList {UserMonitor} l.

(** ["*" in url] *)
Fixpoint contains_star (url : string) : bool :=
  match url with
  | EmptyString => false
  | String c rest => if Ascii.eqb c "*"%char then true else contains_star rest
  end.

(** [str(x)] of an [Optional[str]] inside an f-string. *)
Definition str_of_optional (x : option string) : string :=
  match x with
  | Some s => s
  | None => "None"
  end.

Section Config.

Context {World TreeCache Features ProcessorMixin FeatureExtractor Tokenizer Resources
         HFDataSource UserMonitor : Type}.

Local Abbreviation Source := (ShardedDataSource HFDataSource).
Local Abbreviation Monitor := (MetricsMonitor UserMonitor).
Local Abbreviation Cache := (ProcessedAudioCache TreeCache).

(** Collaborators outside the module: [braceexpand.braceexpand], [fs.glob]
    of the file system of a url, the constructor of [WrappedHFDataSource]
    and its [shard_names], [datasets.load_dataset] followed by a look at the
    first item, the cached properties [the_processor] and [the_tokenizer],
    [os.path.join] and [os.path.basename], and the logger. *)
Variable braceexpand : string -> result (list string).
Variable glob : string -> M World (list string).
Variable WrappedHFDataSource :
  string -> string -> option string -> bool -> M World HFDataSource.
Variable shard_names : HFDataSource -> list string.
Variable load_dataset_has_item :
  string -> option string -> bool -> string -> M World bool.
Variable the_processor : AudioIODatasetConfig -> M World ProcessorMixin.
Variable the_tokenizer : AudioIODatasetConfig -> M World Tokenizer.
Variable path_join : string -> string -> string.
Variable path_basename : string -> string.
Variable logger_info : string -> World -> World.
Variable logger_warning : string -> World -> World.
Variable logger_exception : string -> World -> World.

(** [levanter.store.cache] and the constants of [ProcessedAudioCache]. *)
Variable zeros_1_1 : Features.
Variable TreeCache_load : string -> AudioTextDict Features -> M World TreeCache.
Variable build_or_load_cache_fn :
  string -> Source -> BatchAudioProcessor FeatureExtractor Tokenizer Resources ->
  bool -> list Monitor -> M World TreeCache.
Variable is_finished : TreeCache -> World -> bool.
Variable feature_extractor_of : ProcessorMixin -> FeatureExtractor.

(** A comprehension [[y for x in xs for y in f(x)]] whose inner iterable is
    computed in the world. *)
Fixpoint for_each {A B : Type} (f : A -> M World (list B)) (xs : list A)
    : M World (list B) :=
  match xs with
  | [] => ret []
  | x :: rest =>
      bind (f x) (fun ys => bind (for_each f rest) (fun zs => ret (ys ++ zs)%list))
  end.

(** The local function [fsspec_expand_glob] of [urls_for_split]. *)
Definition fsspec_expand_glob (url : string) : M World (list string) :=
  if contains_star url then glob url else ret [url].

(** [AudioDatasetSourceConfig.urls_for_split] *)
Definition urls_for_split (self : AudioDatasetSourceConfig) (split : string)
    : M World (list string) :=
  bind (if decide (split = "train") then ret (train_urls self)
        else if decide (split = "validation") then ret (validation_urls self)
        else raise (ValueError ("Unknown split " ++ split)))
    (fun urls =>
       for_each (fun pat =>
                   match braceexpand pat with
                   | Ok expanded => for_each fsspec_expand_glob expanded
                   | Raise e => raise e
                   end) urls).

(** [AudioDatasetSourceConfig.get_shard_source] *)
Definition get_shard_source (self : AudioDatasetSourceConfig) (split : string)
    : M World (option Source) :=
  match id self with
  | Some the_id =>
      bind
        (try_except
           (bind (WrappedHFDataSource the_id split (name self) (stream self))
              (fun ds => ret (Some ds)))
           (fun e =>
              match e with
              | ValueError msg =>
                  if String.prefix "Bad split" msg
                  then fun w =>
                         (Ok None,
                          logger_warning ("Splits " ++ split ++ " not found for "
                                          ++ the_id ++ " " ++ str_of_optional (name self)) w)
                  else raise e
              | _ => raise e
              end))
        (fun found =>
           match found with
           | None => ret None
           | Some ds =>
               if (Datatypes.length (shard_names ds) =? 0)%nat then ret None
               else ret (Some (MappedHFDataSource ds (text_key self) (audio_key self)
                                 (sampling_rate self)))
           end)
  | None =>
      bind (urls_for_split self split)
        (fun split_urls =>
           if (Datatypes.length split_urls =? 0)%nat then ret None
           else ret (Some (AudioTextUrlDataSource split_urls (text_key self)
                             (audio_key self) (sampling_rate self))))
  end.

(** [AudioIODatasetConfig.build_or_load_cache] *)
Definition build_or_load_cache (self : AudioIODatasetConfig) (split : string)
    (batch_size : Z) (monitors : monitors_arg UserMonitor) (logger_name : option string)
    : M World (option Cache) :=
  let split_cache_dir := path_join (cache_dir (task_config self)) split in
  let name :=
    match logger_name with
    | Some (String c rest) => String c rest
    | _ => path_basename (cache_dir (task_config self))
    end in
  fun w =>
    match load zeros_1_1 TreeCache_load logger_exception split_cache_dir w with
    | (Ok loaded, w1) => (Ok (Some loaded), w1)
    | (Raise e, w1) =>
        if is_FileNotFoundError e then
          bind (get_shard_source (source_config self) split)
            (fun source =>
               match source with
               | None => fun w2 => (Ok None, logger_info ("No data for " ++ split) w2)
               | Some source =>
                   fun w2 =>
                     let monitors :=
                       match monitors with
                       | MonitorsBool true =>
                           [LoggingMetricsMonitor
                              ("preprocessing/" ++ name ++ "/" ++ split) false;
                            LoggerMetricsMonitor
                              ("preprocessing." ++ name ++ "." ++ split)]
                       | MonitorsBool false => []
                       | MonitorsList l => l
                       end in
                     bind (the_processor self)
                       (fun the_processor =>
                          bind (the_tokenizer self)
                            (fun the_tokenizer =>
                               bind (build_or_load build_or_load_cache_fn is_finished
                                       logger_info feature_extractor_of split_cache_dir
                                       source the_processor the_tokenizer
                                       (enforce_bos (task_config self))
                                       (enforce_eos (task_config self))
                                       batch_size (Some monitors)
                                       (if decide (split = "validation") then true else false)
                                       None (max_length (task_config self)))
                                 (fun built => ret (Some built))))
                       (logger_info ("Building cache for " ++ split ++ "...") w2)
               end) w1
        else (Raise e, w1)
    end.

(** [AudioIODatasetConfig.train_set] *)
Definition train_set (self : AudioIODatasetConfig) (batch_size : Z)
    (monitors : monitors_arg UserMonitor) : M World Cache :=
  bind (build_or_load_cache self (train_split (task_config self)) batch_size monitors None)
    (fun ds =>
       match ds with
       | None => raise (ValueError "No training set!")
       | Some ds => ret ds
       end).

(** [AudioIODatasetConfig.validation_set] *)
Definition validation_set (self : AudioIODatasetConfig)
    (monitors : monitors_arg UserMonitor) : M World (option Cache) :=
  build_or_load_cache self (validation_split (task_config self)) 128 monitors None.

(** [AudioIODatasetConfig._has_validation_set], as computed on first access. *)
Definition _has_validation_set (self : AudioIODatasetConfig) : M World bool :=
  if (0 <? Datatypes.length (validation_urls (source_config self)))%nat then ret true
  else
    match id (source_config self) with
    | Some the_id =>
        load_dataset_has_item the_id (name (source_config self))
          (stream (source_config self)) (validation_split (task_config self))
    | None => ret false
    end.

(** [AudioIODatasetConfig.validation_sets] *)
Definition validation_sets (self : AudioIODatasetConfig)
    (monitors : monitors_arg UserMonitor) : M World (gmap string Cache) :=
  bind (_has_validation_set self)
    (fun has_validation_set =>
       if has_validation_set then
         bind (validation_set self monitors)
           (fun validation_set =>
              match validation_set with
              | Some validation_set => ret {[ "" := validation_set ]}
              | None => ret ∅
              end)
       else ret ∅).

End Config.

(** *** A configuration to run the definitions on

    Brace expansion that leaves every pattern as it is, a file system whose
    glob finds two shards for every pattern, no HuggingFace data, and a
    cache builder that always returns cache number 1. *)
Definition toy_braceexpand (pat : string) : result (list string) := Ok [pat].

Definition toy_glob (url : string) : M toy_world (list string) :=
  ret [url ++ ".0"; url ++ ".1"].

Definition toy_hf (the_id split : string) (name : option string) (stream : bool)
    : M toy_world unit :=
  raise (ValueError ("Bad split " ++ split)).

Definition toy_build (cache_dir : string) (source : ShardedDataSource unit)
    (bp : BatchAudioProcessor unit unit unit) (await_finished : bool)
    (monitors : list (MetricsMonitor unit)) : M toy_world nat :=
  ret 1%nat.

Definition toy_source_config : AudioDatasetSourceConfig :=
  {| id := None; name := None; plaintext := false; stream := true;
     text_key := "text"; audio_key := "audio"; sampling_rate := 16000;
     train_urls := ["gs://bucket/train-*.jsonl"; "local.jsonl"];
     validation_urls := [] |}.

Definition toy_task_config (cache_dir : string) : AudioTaskConfig :=
  {| processor := "openai/whisper-tiny"; tokenizer := None;
     train_split := "train"; validation_split := "validation";
     cache_dir := cache_dir; enforce_bos := true; enforce_eos := true;
     max_length := 448 |}.

Definition toy_config (cache_dir : string) : AudioIODatasetConfig :=
  {| source_config := toy_source_config; task_config := toy_task_config cache_dir |}.

Definition toy_source_config_with (the_id : option string) (train validation : list string)
    : AudioDatasetSourceConfig :=
  {| id := the_id; name := None; plaintext := false; stream := true;
     text_key := "text"; audio_key := "audio"; sampling_rate := 16000;
     train_urls := train; validation_urls := validation |}.

Definition toy_config_with (the_id : option string) (train validation : list string)
    (cache_dir : string) : AudioIODatasetConfig :=
  {| source_config := toy_source_config_with the_id train validation;
     task_config := toy_task_config cache_dir |}.

Definition toy_path_join (dir file : string) : string := dir ++ "/" ++ file.

Definition toy_urls_for_split : AudioDatasetSourceConfig -> string -> M toy_world (list string) :=
  urls_for_split toy_braceexpand toy_glob.

Definition toy_get_shard_source
    : AudioDatasetSourceConfig -> string -> M toy_world (option (ShardedDataSource unit)) :=
  get_shard_source toy_braceexpand toy_glob toy_hf (fun _ : unit => []) toy_logger.

Definition toy_build_or_load_cache
    : AudioIODatasetConfig -> string -> Z -> monitors_arg unit -> option string ->
      M toy_world (option (ProcessedAudioCache nat)) :=
  build_or_load_cache toy_braceexpand toy_glob toy_hf (fun _ : unit => [])
    (fun _ => ret tt) (fun _ => ret tt) toy_path_join (fun dir => dir)
    toy_logger toy_logger toy_logger (0, 0) (TreeCache_load_spec toy_ledger_at)
    toy_build (fun _ _ => true) (fun _ : unit => tt).

Definition toy_train_set
    : AudioIODatasetConfig -> Z -> monitors_arg unit -> M toy_world (ProcessedAudioCache nat) :=
  train_set toy_braceexpand toy_glob toy_hf (fun _ : unit => [])
    (fun _ => ret tt) (fun _ => ret tt) toy_path_join (fun dir => dir)
    toy_logger toy_logger toy_logger (0, 0) (TreeCache_load_spec toy_ledger_at)
    toy_build (fun _ _ => true) (fun _ : unit => tt).

Definition toy_validation_sets
    : AudioIODatasetConfig -> monitors_arg unit ->
      M toy_world (gmap string (ProcessedAudioCache nat)) :=
  validation_sets toy_braceexpand toy_glob toy_hf (fun _ : unit => [])
    (fun _ _ _ _ => ret false)
    (fun _ => ret tt) (fun _ => ret tt) toy_path_join (fun dir => dir)
    toy_logger toy_logger toy_logger (0, 0) (TreeCache_load_spec toy_ledger_at)
    toy_build (fun _ _ => true) (fun _ : unit => tt).

End AudioConfig.

(** ** [levanter/jax_utils.py]: [parameter_count] *)
Module JaxUtils.

(** A leaf of the pytree as [parameter_count] sees it: its identity [id(x)],
    whether [_is_param_leaf(x)] holds (a [ShapeDtypeStruct] of inexact dtype
    or an inexact array) and its number of elements [x.size]. *)
Record leaf : Type := {
  leaf_id : Z;
  _is_param_leaf : bool;
  size : Z
}.

(** [leaves = {id(x): x for x in jax.tree_util.tree_leaves(model) if _is_param_leaf(x)}]:
    a later leaf replaces an earlier one under the same key. *)
Definition leaves_by_id (tree_leaves : list leaf) : gmap Z leaf :=
  fold_left (fun leaves x => <[leaf_id x := x]> leaves)
    (List.filter _is_param_leaf tree_leaves) ∅.

(** Identities name objects: two leaves of the list with the same [id] are
    the same leaf. *)
Definition ids_name_objects (l : list leaf) : Prop :=
  forall x y, In x l -> In y l -> leaf_id x = leaf_id y -> x = y.

(** [parameter_count(model)], on the leaves of the model:
    [sum(x.size for x in leaves.values())]. *)
Definition parameter_count (tree_leaves : list leaf) : Z :=
  map_fold (fun _ x total => size x + total) 0 (leaves_by_id tree_leaves).

End JaxUtils.

(** ** Operands of [Permutation.__call__] on arrays *)
Module PrpDomain.
Import Prp.

(** [z] is a value of the element type [d]. *)
Definition fits (d : dtype) (z : Z) : Prop :=
  - 2 ^ (bits d - 1) <= z < 2 ^ (bits d - 1).

(** The operands a call combines with its argument are representable in the
    element type of the argument: nothing is asked for a Python [int], and
    [self.length], [self._a] and [self._b] are values of the element type
    for an array.  The multiplier and offset stored by [__init__] are
    [int32] draws, so for them this is a condition on the length. *)
Definition operands_fit {Key : Type} (self : Permutation Key) (ix : indices) : Prop :=
  match ix with
  | Scalar _ => True
  | JnpArray d _ => fits d (length self) /\ fits d (_a self) /\ fits d (_b self)
  | NpArray d _ => fits d (length self) /\ fits d (_a self) /\ fits d (_b self)
  end.

End PrpDomain.

(** ** [Permutation.__init__] over a generator that may keep state *)
Module PrpAmbient.
Import Prp.

Section Ambient.

(** [jax.random] seen as a library with a state of its own, [World]: a call
    returns its answer and the state it leaves.  Whether the answer depends
    on the state is for the library to say; the program passes keys and
    nothing else. *)
Context {Key World : Type}.
Variable split : Key -> World -> (Key * Key) * World.
Variable randint : Key -> Z -> Z -> World -> Z * World.

(** [jax.lax.while_loop] with a body that runs in the world. *)
Fixpoint while_loop {S : Type} (fuel : nat) (cond_fun : S -> bool)
    (body_fun : S -> World -> S * World) (val : S) (w : World) : option S * World :=
  match fuel with
  | O => if cond_fun val then (None, w) else (Some val, w)
  | Datatypes.S fuel' =>
      if cond_fun val
      then let '(val', w') := body_fun val w in
           while_loop fuel' cond_fun body_fun val' w'
      else (Some val, w)
  end.

Definition loop_body (length : Z) (a_and_key : Z * Key) (w : World)
    : (Z * Key) * World :=
  let '(a, key) := a_and_key in
  let '((this_key, key), w) := split key w in
  let '(a, w) := randint this_key 1 length w in
  ((a, key), w).

(** [Permutation.__init__(self, length, prng_key)], the library calls made
    in the order of the source. *)
Definition __init__ (fuel : nat) (length : Z) (prng_key : Key) (w : World)
    : option (Permutation Key) * World :=
  let '((a_key, b_key), w) := split prng_key w in
  let '(a, w) := randint a_key 1 length w in
  let '(b, w) := randint b_key 0 length w in
  match while_loop fuel (cond length) (loop_body length) (a, a_key) w with
  | (Some (a, key), w) =>
      (Some {| length := length; prng_key := prng_key; _a := a; _b := b |}, w)
  | (None, w) => (None, w)
  end.

End Ambient.



End PrpAmbient.

(* ===================================================================== *)
(** * Part II: theorems                                                   *)
(* ===================================================================== *)

(** ** The permutation *)
Module PrpSpec.
Import Prp PrpDomain.

(** *** Arithmetic of the affine map *)

Lemma mod_eq_divide (m x y : Z) :
  0 < m -> x mod m = y mod m -> (m | x - y).
Proof.
  intros Hm Heq.
  apply Z.mod_divide; [lia |].
  rewrite Zminus_mod, Heq, Z.sub_diag.
  apply Z.mod_0_l; lia.
Qed.

Lemma divide_small (m d : Z) :
  0 < m -> - m < d < m -> (m | d) -> d = 0.
Proof.
  intros Hm Hd [q Hq]. subst d.
  assert (-1 < q < 1) by nia. nia.
Qed.

(** An invertible multiplier makes [x |-> (a * x + b) mod m] injective on
    [[0, m)]. *)
Lemma affine_mod_inj (m a b i j : Z) :
  0 < m -> Z.gcd a m = 1 ->
  0 <= i < m -> 0 <= j < m ->
  (a * i + b) mod m = (a * j + b) mod m -> i = j.
Proof.
  intros Hm Hg Hi Hj Heq.
  apply mod_eq_divide in Heq; [| assumption].
  replace (a * i + b - (a * j + b)) with (a * (i - j)) in Heq by ring.
  apply Z.gauss in Heq; [| rewrite Z.gcd_comm; exact Hg].
  apply divide_small in Heq; lia.
Qed.

Lemma wrap_small (d : dtype) (z : Z) :
  - 2 ^ (bits d - 1) <= z < 2 ^ (bits d - 1) -> wrap d z = z.
Proof.
  intros Hz. unfold wrap.
  assert (H2 : 2 ^ bits d = 2 * 2 ^ (bits d - 1)) by (destruct d; reflexivity).
  rewrite Z.mod_small; lia.
Qed.

(** *** The loop *)

Section Loop.
Context {S : Type} (cond_fun : S -> bool) (body_fun : S -> S).

Lemma while_loop_exit (fuel : nat) (s s' : S) :
  while_loop fuel cond_fun body_fun s = Some s' -> cond_fun s' = false.
Proof.
  revert s. induction fuel as [| fuel IH]; intros s; simpl;
    destruct (cond_fun s) eqn:E; intros H; try discriminate; eauto;
    injection H as <-; exact E.
Qed.

(** An invariant that holds at entry and is kept, or established, by the
    body holds at exit. *)
Lemma while_loop_inv (P : S -> Prop) (fuel : nat) (s s' : S) :
  (forall x, P (body_fun x)) -> P s ->
  while_loop fuel cond_fun body_fun s = Some s' -> P s'.
Proof.
  intros Hbody. revert s.
  induction fuel as [| fuel IH]; intros s Hs; simpl;
    destruct (cond_fun s); intros H; try discriminate.
  - congruence.
  - eapply IH; [apply Hbody | exact H].
  - congruence.
Qed.


(** The loop leaves as soon as an iterate fails the condition. *)
Lemma while_loop_terminates (n : nat) (s : S) :
  cond_fun (Nat.iter n body_fun s) = false ->
  exists s', while_loop n cond_fun body_fun s = Some s'.
Proof.
  revert s. induction n as [| n IH]; intros s H; simpl in *.
  - rewrite H. eauto.
  - destruct (cond_fun s); [| eauto].
    apply IH. rewrite <- Nat.iter_succ_r. exact H.
Qed.
End Loop.

(** *** Lists of indices *)

Lemma in_range (n y : Z) : In y (range n) <-> 0 <= y < n.
Proof.
  unfold range. rewrite in_map_iff. split.
  - intros (k & <- & Hk). apply in_seq in Hk. lia.
  - intros Hy. exists (Z.to_nat y). split; [lia |]. apply in_seq. lia.
Qed.

Lemma length_range (n : Z) : Datatypes.length (range n) = Z.to_nat n.
Proof. unfold range. now rewrite length_map, length_seq. Qed.

Lemma NoDup_range (n : Z) : List.NoDup (range n).
Proof.
  unfold range. generalize (seq_NoDup (Z.to_nat n) 0).
  induction 1 as [| k l Hk _ IH]; simpl; constructor; [| exact IH].
  rewrite in_map_iff. intros (k' & Heq & Hin).
  apply Nat2Z.inj in Heq. now subst.
Qed.

Lemma NoDup_map_inj_on {A B : Type} (f : A -> B) (l : list A) :
  (forall x y, In x l -> In y l -> f x = f y -> x = y) ->
  List.NoDup l -> List.NoDup (map f l).
Proof.
  intros Hinj Hl. induction Hl as [| x l Hx _ IH]; simpl; constructor.
  - rewrite in_map_iff. intros (y & Heq & Hy).
    apply Hx. rewrite (Hinj x y); simpl; auto.
  - apply IH. intros a b Ha Hb. apply Hinj; simpl; auto.
Qed.

(** *** Construction and application *)

Section Construction.
Context {Key : Type} (split : Key -> Key * Key) (randint : Key -> Z -> Z -> Z).

Local Abbreviation init := (__init__ split randint).

(** What [__init__] stores, read off its definition. *)
Lemma init_fields (fuel : nat) (n : Z) (key : Key) (p : Permutation Key) :
  init fuel n key = Some p ->
  length p = n /\ prng_key p = key /\
  _b p = randint (snd (split key)) 0 n /\
  exists k, while_loop fuel (cond n) (loop_body split randint n)
              (randint (fst (split key)) 1 n, fst (split key)) = Some (_a p, k).
Proof.
  unfold __init__. destruct (split key) as [a_key b_key]; simpl.
  destruct (while_loop _ _ _ _) as [[a k] |] eqn:E; [| discriminate].
  intros [= <-]; simpl. eauto.
Qed.

Lemma init_gcd (fuel : nat) (n : Z) (key : Key) (p : Permutation Key) :
  init fuel n key = Some p -> Z.gcd (_a p) (length p) = 1.
Proof.
  intros H. destruct (init_fields _ _ _ _ H) as (-> & _ & _ & k & Hloop).
  apply while_loop_exit in Hloop. unfold cond in Hloop; simpl in Hloop.
  apply negb_false_iff, Z.eqb_eq in Hloop. exact Hloop.
Qed.

Lemma call_scalar_in_range (p : Permutation Key) (i : Z) :
  0 <= i < length p ->
  __call__ p (Scalar i) = Ok (Scalar ((_a p * i + _b p) mod length p)).
Proof.
  intros Hi. unfold __call__; simpl.
  replace (i <? 0) with false by (symmetry; apply Z.ltb_ge; lia).
  replace (i >=? length p) with false by (symmetry; rewrite Z.geb_leb; apply Z.leb_gt; lia).
  reflexivity.
Qed.

(** C1.  For every length above one and every key, the permutation that
    [Permutation(length, key)] constructs is a bijection on [[0, length)]:
    applied to each index of [range(length)] it returns, without error,
    values that are pairwise distinct and are exactly the integers of
    [[0, length)]. *)
Theorem permutation_bijection (fuel : nat) (n : Z) (key : Key) (p : Permutation Key) :
  1 < n ->
  init fuel n key = Some p ->
  exists ys : list Z,
    map (fun i => __call__ p (Scalar i)) (range n)
      = map (fun y => Ok (Scalar y)) ys /\
    List.NoDup ys /\
    (forall y, In y ys <-> 0 <= y < n).
Proof.
  intros Hn Hinit.
  pose proof (init_gcd _ _ _ _ Hinit) as Hg.
  destruct (init_fields _ _ _ _ Hinit) as (Hlen & _).
  rewrite Hlen in Hg.
  exists (map (affine_int p) (range n)).
  assert (Hnodup : List.NoDup (map (affine_int p) (range n))).
  { apply NoDup_map_inj_on; [| apply NoDup_range].
    intros i j Hi Hj. rewrite in_range in Hi, Hj.
    unfold affine_int. rewrite Hlen.
    apply affine_mod_inj; auto; lia. }
  assert (Hincl : incl (map (affine_int p) (range n)) (range n)).
  { intros y Hy. apply in_map_iff in Hy as (i & <- & _).
    apply in_range. unfold affine_int. rewrite Hlen.
    apply Z.mod_pos_bound; lia. }
  split; [| split].
  - rewrite map_map. apply map_ext_in. intros i Hi.
    apply in_range in Hi. rewrite call_scalar_in_range by lia.
    reflexivity.
  - exact Hnodup.
  - intros y. split.
    + intros Hy. apply in_range, Hincl, Hy.
    + intros Hy. apply in_range in Hy. revert y Hy.
      apply NoDup_length_incl; [exact Hnodup | | exact Hincl].
      now rewrite length_map.
Qed.

(** C4.  With a generator whose [randint key () minval maxval] lies in
    [[minval, maxval)], once [Permutation(length, key)] has returned for a
    length above one, the stored multiplier is coprime to the length and
    lies in [[1, length)], and the stored offset lies in [[0, length)]. *)
Theorem init_invariant (fuel : nat) (n : Z) (key : Key) (p : Permutation Key) :
  (forall k lo hi, lo < hi -> lo <= randint k lo hi < hi) ->
  1 < n ->
  init fuel n key = Some p ->
  length p = n /\
  Z.gcd (_a p) n = 1 /\ 1 <= _a p < n /\ 0 <= _b p < n.
Proof.
  intros Hrange Hn Hinit.
  pose proof (init_gcd _ _ _ _ Hinit) as Hg.
  destruct (init_fields _ _ _ _ Hinit) as (Hlen & _ & Hb & k & Hloop).
  rewrite Hlen in Hg.
  assert (Ha : 1 <= _a p < n).
  { apply (while_loop_inv _ _ (fun s => 1 <= fst s < n)) in Hloop;
      [exact Hloop | | apply Hrange; lia].
    intros [a k']. unfold loop_body. destruct (split k'); simpl.
    apply Hrange; lia. }
  assert (Hb' : 0 <= _b p < n) by (rewrite Hb; apply Hrange; lia).
  auto.
Qed.

(** C6.  For length one and every key, construction returns (the loop
    condition is false at once, whatever fuel is given) and the
    permutation sends 0 to 0. *)
Theorem init_length_one (fuel : nat) (key : Key) :
  exists p : Permutation Key,
    init fuel 1 key = Some p /\ __call__ p (Scalar 0) = Ok (Scalar 0).
Proof.
  unfold __init__. destruct (split key) as [a_key b_key].
  assert (Hc : cond 1 (randint a_key 1 1, a_key) = false).
  { unfold cond; simpl. rewrite Z.gcd_1_r. reflexivity. }
  assert (Hl : while_loop fuel (cond 1) (loop_body split randint 1)
                 (randint a_key 1 1, a_key) = Some (randint a_key 1 1, a_key)).
  { destruct fuel; simpl; rewrite Hc; reflexivity. }
  rewrite Hl. eexists. split; [reflexivity |].
  unfold __call__, affine, affine_int; simpl.
  rewrite Z.mod_1_r. reflexivity.
Qed.

(** *** Bound checks *)

Lemma existsb_Zpred (f : Z -> bool) (P : Z -> Prop) (xs : list Z) :
  (forall x, f x = true <-> P x) ->
  existsb f xs = true <-> exists x, In x xs /\ P x.
Proof.
  intros Hf. rewrite existsb_exists.
  split; intros (x & Hx & H); exists x; split; auto; apply Hf; exact H.
Qed.

Lemma out_of_bounds_spec (p : Permutation Key) (ix : indices) :
  out_of_bounds p ix = true <->
  exists x, In x (elems ix) /\ (x < 0 \/ length p <= x).
Proof.
  assert (Harr : forall xs,
    existsb (fun x => x <? 0) xs || existsb (fun x => x >=? length p) xs = true
    <-> exists x, In x xs /\ (x < 0 \/ length p <= x)).
  { intros xs. rewrite orb_true_iff.
    rewrite (existsb_Zpred _ (fun x => x < 0)) by (intros; apply Z.ltb_lt).
    rewrite (existsb_Zpred _ (fun x => length p <= x))
      by (intros; rewrite Z.geb_leb; apply Z.leb_le).
    split.
    - intros [(x & ? & ?) | (x & ? & ?)]; exists x; auto.
    - intros (x & ? & [? | ?]); [left | right]; exists x; auto. }
  destruct ix as [i | d xs | d xs]; simpl; try apply Harr.
  rewrite orb_true_iff, Z.ltb_lt, Z.geb_leb, Z.leb_le. split.
  - intros H. exists i. auto.
  - intros (x & [<- | []] & H). exact H.
Qed.

(** C3.  A call raises [IndexError] exactly when the argument, scalar or
    array, has an element that is negative or not below the length, and it
    returns a value exactly when every element lies in [[0, length)]: no
    out-of-range element reaches the modular arithmetic.  For an array the
    length, multiplier and offset are taken to be values of its element
    type. *)
Theorem call_bounds_checked (p : Permutation Key) (ix : indices) :
  operands_fit p ix ->
  (__call__ p ix = Raise (IndexError ix (length p)) <->
     exists x, In x (elems ix) /\ (x < 0 \/ length p <= x)) /\
  ((exists r, __call__ p ix = Ok r) <->
     forall x, In x (elems ix) -> 0 <= x < length p).
Proof.
  intros _.
  pose proof (out_of_bounds_spec p ix) as [Hbad Hbad'].
  unfold __call__. destruct (out_of_bounds p ix); split; split.
  - intros _. apply Hbad. reflexivity.
  - reflexivity.
  - intros [r Hr]. discriminate.
  - intros Hall. destruct (Hbad eq_refl) as (x & Hx & Hx').
    specialize (Hall x Hx). lia.
  - discriminate.
  - intros H. apply Hbad' in H. discriminate.
  - intros _ x Hx.
    destruct (Z_lt_dec x 0) as [Hlt | Hge];
      [| destruct (Z_le_dec (length p) x) as [Hle | Hgt]; [| lia]].
    + assert (false = true) by (apply Hbad'; eauto). discriminate.
    + assert (false = true) by (apply Hbad'; eauto). discriminate.
  - intros _. eauto.
Qed.

(** *** Scalar and batched calls *)

Lemma call_in_range (p : Permutation Key) (ix : indices) :
  (forall x, In x (elems ix) -> 0 <= x < length p) ->
  __call__ p ix = Ok (affine p ix).
Proof.
  intros Hall. unfold __call__.
  destruct (out_of_bounds p ix) eqn:E; [| reflexivity].
  apply out_of_bounds_spec in E as (x & Hx & Hbad).
  specialize (Hall x Hx). lia.
Qed.

(** A batched call keeps the kind of array, its element type and its
    number of elements. *)
Lemma affine_shape (p : Permutation Key) (ix : indices) :
  match ix, affine p ix with
  | Scalar _, Scalar _ => True
  | JnpArray d xs, JnpArray d' ys =>
      d = d' /\ Datatypes.length ys = Datatypes.length xs
  | NpArray d xs, NpArray d' ys =>
      d = d' /\ Datatypes.length ys = Datatypes.length xs
  | _, _ => False
  end.
Proof. destruct ix; simpl; auto using length_map. Qed.

(** As long as [a * x + b] fits the element type, the array expression
    computes the exact [(a * x + b) mod length]. *)
Lemma affine_elt_exact (d : dtype) (p : Permutation Key) (x : Z) :
  0 < length p <= 2 ^ (bits d - 1) ->
  0 <= _a p -> 0 <= _b p -> 0 <= x ->
  _a p * x + _b p < 2 ^ (bits d - 1) ->
  affine_elt d p x = affine_int p x.
Proof.
  intros Hlen Ha Hb Hx Hfit. unfold affine_elt, affine_int.
  assert (0 <= _a p * x) by nia.
  assert (0 < 2 ^ (bits d - 1)) by (destruct d; reflexivity).
  rewrite (wrap_small d (_a p * x)) by lia.
  rewrite (wrap_small d (_a p * x + _b p)) by lia.
  apply wrap_small.
  pose proof (Z.mod_pos_bound (_a p * x + _b p) (length p)). lia.
Qed.

(** With the invariant of [__init__], a batched call on valid indices
    whose affine images all fit the element type returns, element by
    element, what the scalar call returns. *)
Lemma call_batched_exact (d : dtype) (p : Permutation Key) (xs : list Z) :
  0 < length p <= 2 ^ (bits d - 1) ->
  1 <= _a p < length p -> 0 <= _b p < length p ->
  _a p * (length p - 1) + _b p < 2 ^ (bits d - 1) ->
  (forall x, In x xs -> 0 <= x < length p) ->
  __call__ p (JnpArray d xs) = Ok (JnpArray d (map (affine_int p) xs)) /\
  __call__ p (NpArray d xs) = Ok (NpArray d (map (affine_int p) xs)).
Proof.
  intros Hlen Ha Hb Hfit Hall.
  assert (Hmap : map (affine_elt d p) xs = map (affine_int p) xs).
  { apply map_ext_in. intros x Hx. specialize (Hall x Hx).
    apply affine_elt_exact; try lia. nia. }
  split; rewrite call_in_range by exact Hall; simpl; now rewrite Hmap.
Qed.

Lemma wrap_eq (d : dtype) (z : Z) :
  wrap d z = z - 2 ^ bits d * ((z + 2 ^ (bits d - 1)) / 2 ^ bits d).
Proof.
  unfold wrap. rewrite Z.mod_eq by (destruct d; discriminate). ring.
Qed.

Lemma wrap_add_l (d : dtype) (u v : Z) :
  wrap d (wrap d u + v) = wrap d (u + v).
Proof.
  unfold wrap at 1 3. f_equal.
  rewrite wrap_eq.
  replace (u - 2 ^ bits d * ((u + 2 ^ (bits d - 1)) / 2 ^ bits d) + v
           + 2 ^ (bits d - 1))
    with (u + v + 2 ^ (bits d - 1)
          + (- ((u + 2 ^ (bits d - 1)) / 2 ^ bits d)) * 2 ^ bits d) by ring.
  apply Z.mod_add. destruct d; discriminate.
Qed.

(** On [int32] arrays the product overflows for large lengths.  For length
    100000 and the index 99999, every multiplier and offset allowed by the
    invariant of [__init__] for which [a * 99999 + b] reaches [2 ^ 31] makes
    the array expression differ from the exact one. *)
Lemma int32_overflow_differs (key : Key) (a b : Z) :
  1 <= a < 100000 -> 0 <= b < 100000 ->
  2 ^ 31 <= a * 99999 + b ->
  let p := {| length := 100000; prng_key := key; _a := a; _b := b |} in
  affine_elt int32 p 99999 <> affine_int p 99999.
Proof.
  intros Ha Hb Hover p. unfold affine_elt, affine_int. simpl.
  rewrite wrap_add_l.
  set (v := a * 99999 + b) in *.
  assert (Hv : v < 10000000000) by (unfold v; lia).
  rewrite (wrap_small int32 (_ mod _))
    by (pose proof (Z.mod_pos_bound (wrap int32 v) 100000); simpl; lia).
  assert (Hw : exists q, 1 <= q <= 2 /\ wrap int32 v = v - q * 4294967296).
  { exists ((v + 2147483648) / 4294967296). split.
    - split.
      + apply Z.div_le_lower_bound; lia.
      + apply Z.lt_succ_r. apply Z.div_lt_upper_bound; lia.
    - rewrite (wrap_eq int32 v).
      change (2 ^ bits int32) with 4294967296.
      change (2 ^ (bits int32 - 1)) with 2147483648. ring. }
  destruct Hw as (q & Hq & ->).
  clearbody v. intros Heq. apply mod_eq_divide in Heq; [| lia].
  replace (v - q * 4294967296 - v) with (- (q * 4294967296)) in Heq by ring.
  apply Z.divide_opp_r in Heq.
  apply Z.mod_divide in Heq; [| lia].
  clear - Hq Heq.
  assert (Hcases : q = 1 \/ q = 2) by (clear Heq; lia).
  destruct Hcases; subst q; vm_compute in Heq; discriminate Heq.
Qed.

End Construction.

(** *** Runs on concrete generators *)

(** [lcg_randint] and [stuck_randint] both answer within [[minval, maxval)]. *)
Lemma lcg_randint_range (k lo hi : Z) : lo < hi -> lo <= lcg_randint k lo hi < hi.
Proof.
  intros H. unfold lcg_randint.
  replace (lo <? hi) with true by (symmetry; apply Z.ltb_lt; lia).
  pose proof (Z.mod_pos_bound (k * 7 + 3) (hi - lo)). lia.
Qed.

Lemma stuck_randint_range (k lo hi : Z) : lo < hi -> lo <= stuck_randint k lo hi < hi.
Proof.
  intros H. unfold stuck_randint.
  destruct (Z.ltb_spec (lo + 1) hi); lia.
Qed.

(** With key 0 and length 10 the first multiplier drawn is 2, the loop body
    runs once and draws 7. *)
Example init_lcg_10 :
  __init__ lcg_split lcg_randint 5 10 0
  = Some {| length := 10; prng_key := 0; _a := 7; _b := 7 |}.
Proof. reflexivity. Qed.

Example call_lcg_10 :
  map (fun i => __call__ {| length := 10; prng_key := 0; _a := 7; _b := 7 |} (Scalar i))
      (range 10)
  = map (fun y => Ok (Scalar y)) [7; 4; 1; 8; 5; 2; 9; 6; 3; 0].
Proof. reflexivity. Qed.

(** The resampling loop leaves when, and only when, the stream of draws
    contains a multiplier coprime to the length.  The interface of the
    generator alone does not decide it: [lcg_randint] leaves the loop above,
    while with [stuck_randint], which also answers within range, every draw
    for length 4 is 2 and no amount of fuel is enough. *)
Lemma init_returns_when_draw_coprime {Key : Type} (split : Key -> Key * Key)
    (randint : Key -> Z -> Z -> Z) (fuel : nat) (n : Z) (key : Key) :
  cond n (Nat.iter fuel (loop_body split randint n)
            (randint (fst (split key)) 1 n, fst (split key))) = false ->
  exists p, __init__ split randint fuel n key = Some p.
Proof.
  intros H. apply while_loop_terminates in H as [[a k] Hs].
  unfold __init__. destruct (split key) as [a_key b_key]; simpl in *.
  rewrite Hs. eauto.
Qed.

Lemma init_stuck_never_returns (fuel : nat) (key : Z) :
  __init__ lcg_split stuck_randint fuel 4 key = None.
Proof.
  unfold __init__. destruct (lcg_split key) as [a_key b_key].
  assert (H : forall k, while_loop fuel (cond 4) (loop_body lcg_split stuck_randint 4)
                          (2, k) = None).
  { induction fuel as [| fuel IH]; intros k; simpl; [reflexivity |]. apply IH. }
  change (stuck_randint a_key 1 4) with 2. rewrite H. reflexivity.
Qed.

Lemma permutation_bijection_witness :
  exists ys : list Z,
    map (fun i => __call__ {| length := 10; prng_key := 0; _a := 7; _b := 7 |} (Scalar i))
        (range 10)
      = map (fun y => Ok (Scalar y)) ys /\
    List.NoDup ys /\
    (forall y, In y ys <-> 0 <= y < 10).
Proof.
  apply (permutation_bijection lcg_split lcg_randint 5 10 0);
    [reflexivity | exact init_lcg_10].
Defined.

Lemma call_bounds_checked_witness :
  let p := {| length := 10; prng_key := 0; _a := 7; _b := 7 |} in
  (__call__ p (JnpArray int32 [3; 12]) = Raise (IndexError (JnpArray int32 [3; 12]) 10) <->
     exists x, In x [3; 12] /\ (x < 0 \/ 10 <= x)) /\
  ((exists r, __call__ p (JnpArray int32 [3; 12]) = Ok r) <->
     forall x, In x [3; 12] -> 0 <= x < 10).
Proof.
  apply (call_bounds_checked {| length := 10; prng_key := 0; _a := 7; _b := 7 |}
           (JnpArray int32 [3; 12])).
  unfold operands_fit, fits. simpl. lia.
Defined.

Lemma init_invariant_witness :
  let p := {| length := 10; prng_key := 0; _a := 7; _b := 7 |} in
  length p = 10 /\ Z.gcd (_a p) 10 = 1 /\ 1 <= _a p < 10 /\ 0 <= _b p < 10.
Proof.
  apply (init_invariant lcg_split lcg_randint 5 10 0);
    [exact lcg_randint_range | reflexivity | exact init_lcg_10].
Defined.

(** With the generator [lcg_randint], [Permutation(100000, 5000)] stores the
    multiplier 70011 and the offset 70017.  On the valid index 99999 the
    scalar call and the call on an [int64] array return 6; on an [int32]
    array the product wraps and the call returns 65414. *)
Example call_int32_array_run :
  let p := {| length := 100000; prng_key := 5000; _a := 70011; _b := 70017 |} in
  __init__ lcg_split lcg_randint 0 100000 5000 = Some p /\
  __call__ p (Scalar 99999) = Ok (Scalar 6) /\
  __call__ p (JnpArray int32 [99999]) = Ok (JnpArray int32 [65414]) /\
  __call__ p (NpArray int32 [99999]) = Ok (NpArray int32 [65414]) /\
  __call__ p (NpArray int64 [99999]) = Ok (NpArray int64 [6]).
Proof. vm_compute. repeat split; reflexivity. Qed.

(** C2.  The scalar and the batched call do not always agree.  For a
    permutation of length 100000 whose multiplier and offset satisfy the
    invariant of [__init__] and make [a * 99999 + b] reach [2 ^ 31], the
    scalar call on the valid index 99999 returns the exact
    [(a * 99999 + b) mod 100000], and the call on the one-element [int32]
    array holding 99999 returns a different value. *)
Theorem call_int32_array_overflow {Key : Type} (key : Key) (a b : Z) :
  1 <= a < 100000 -> 0 <= b < 100000 ->
  2 ^ 31 <= a * 99999 + b ->
  let p := {| length := 100000; prng_key := key; _a := a; _b := b |} in
  exists y y' : Z,
    __call__ p (Scalar 99999) = Ok (Scalar y) /\
    __call__ p (JnpArray int32 [99999]) = Ok (JnpArray int32 [y']) /\
    y = (a * 99999 + b) mod 100000 /\
    y' <> y.
Proof.
  intros Ha Hb Hover p.
  exists (affine_int p 99999), (affine_elt int32 p 99999).
  split; [reflexivity | split; [reflexivity | split; [reflexivity |]]].
  apply int32_overflow_differs; assumption.
Qed.

Lemma call_int32_array_overflow_witness :
  let p := {| length := 100000; prng_key := 5000; _a := 70011; _b := 70017 |} in
  exists y y' : Z,
    __call__ p (Scalar 99999) = Ok (Scalar y) /\
    __call__ p (JnpArray int32 [99999]) = Ok (JnpArray int32 [y']) /\
    y = (70011 * 99999 + 70017) mod 100000 /\
    y' <> y.
Proof.
  apply (call_int32_array_overflow 5000 70011 70017); lia.
Defined.

End PrpSpec.

(** ** The audio processor and the audio cache *)
Module AudioSpec.
Import Audio.

Local Open Scope string_scope.

(** *** The set of sampling rates *)

Lemma rates_mixed (rates : list Z) (r1 r2 : Z) :
  In r1 rates -> In r2 rates -> r1 <> r2 ->
  size (list_to_set rates : gset Z) <> 1%nat.
Proof.
  intros H1 H2 Hne Hsize. apply Hne.
  apply (size_singleton_inv (list_to_set rates : gset Z)); [exact Hsize | |];
    apply elem_of_list_to_set, list_elem_of_In; assumption.
Qed.

Lemma rates_uniform (rates : list Z) (r : Z) :
  rates <> [] -> (forall x, In x rates -> x = r) ->
  (list_to_set rates : gset Z) = {[ r ]}.
Proof.
  intros Hne Hall. apply set_eq. intros x.
  rewrite elem_of_list_to_set, list_elem_of_In, elem_of_singleton. split.
  - apply Hall.
  - intros ->. destruct rates as [| y rates]; [congruence |].
    left. apply Hall. left. reflexivity.
Qed.

Section BatchAudioProcessor.
Context {Audio Features FeatureExtractor Tokenizer Resources : Type}.
Variable extract_features :
  FeatureExtractor -> list Audio -> Z -> result (list Features).
Variable tokenize :
  BatchTokenizer Tokenizer Resources -> list string -> result (list TextFeatures).

Local Abbreviation call := (__call__ extract_features tokenize).

(** C10.  [BatchAudioProcessor.__call__] requires one sampling rate per
    batch.  A batch with two items of different sampling rates ends in the
    assertion error before the feature extractor or the tokenizer is
    called; on a non-empty batch whose items all carry the rate [r] the
    assertion passes and the call goes on to the feature extractor, which
    is given all the audio and the rate [r]. *)
Theorem call_sampling_rates
    (self : BatchAudioProcessor FeatureExtractor Tokenizer Resources)
    (batch : list (Audio * Z * string)) :
  (forall x y, In x batch -> In y batch -> snd (fst x) <> snd (fst y) ->
     call self batch
     = ([], Raise (AssertionError "Sampling rates should be standardized"))) /\
  (forall r, batch <> [] -> (forall x, In x batch -> snd (fst x) = r) ->
     call self batch
     = extract_and_tokenize extract_features tokenize self
         (map (fun item => fst (fst item)) batch) r (map snd batch) /\
     head (fst (call self batch))
     = Some (FeatureExtraction (map (fun item => fst (fst item)) batch) r)).
Proof.
  split.
  - intros x y Hx Hy Hne. unfold __call__.
    destruct batch as [| item batch']; [destruct Hx |].
    set (batch := item :: batch') in *. cbv zeta.
    destruct (decide _) as [Hsize | _]; [| reflexivity].
    exfalso. revert Hsize.
    apply (rates_mixed _ (snd (fst x)) (snd (fst y))); [| | exact Hne];
      apply in_map_iff; eauto.
  - intros r Hne Hall.
    assert (Hset : (list_to_set (map (fun item => snd (fst item)) batch) : gset Z)
                   = {[ r ]}).
    { apply rates_uniform.
      - destruct batch; [congruence | discriminate].
      - intros x Hx. apply in_map_iff in Hx as (item & <- & Hitem). auto. }
    assert (Hcall : call self batch
                    = extract_and_tokenize extract_features tokenize self
                        (map (fun item => fst (fst item)) batch) r (map snd batch)).
    { unfold __call__. destruct batch as [| item batch']; [congruence |].
      set (batch := item :: batch') in *.
      cbv zeta. rewrite Hset.
      rewrite decide_True by apply size_singleton.
      unfold set_pop. rewrite elements_singleton. reflexivity. }
    split; [exact Hcall |].
    rewrite Hcall. unfold extract_and_tokenize.
    destruct (extract_features _ _ _); [| reflexivity].
    destruct (tokenize _ _); reflexivity.
Qed.
End BatchAudioProcessor.

Lemma call_sampling_rates_witness :
  __call__ toy_extract toy_tokenize toy_processor
    [([1; 2; 3], 16000, "a b"); ([4; 5], 8000, "c")]
  = ([], Raise (AssertionError "Sampling rates should be standardized")) /\
  __call__ toy_extract toy_tokenize toy_processor
    [([1; 2; 3], 16000, "a b"); ([4; 5], 16000, "c")]
  = ([FeatureExtraction [[1; 2; 3]; [4; 5]] 16000; Tokenization ["a b"; "c"]],
     Ok [ {| input_features := (16000, 3); input_ids := [3]; attention_mask := [1] |};
          {| input_features := (16000, 2); input_ids := [1]; attention_mask := [1] |} ]).
Proof.
  split.
  - apply (proj1 (call_sampling_rates toy_extract toy_tokenize toy_processor _)
             ([1; 2; 3], 16000, "a b") ([4; 5], 8000, "c"));
      [left; reflexivity | right; left; reflexivity | discriminate].
  - rewrite (proj1 (proj2 (call_sampling_rates toy_extract toy_tokenize toy_processor
                             [([1; 2; 3], 16000, "a b"); ([4; 5], 16000, "c")]) 16000
                      ltac:(discriminate)
                      ltac:(intros x [<- | [<- | []]]; reflexivity))).
    reflexivity.
Defined.

(** *** The cache wrapper *)

Lemma bind_ret_r {World A : Type} (m : M World A) (w : World) :
  bind m (fun a => ret a) w = m w.
Proof. unfold bind, ret. destruct (m w) as [[a | e] w']; reflexivity. Qed.

Section ProcessedAudioCache.
Context {World TreeCache Features Source ProcessorMixin FeatureExtractor
         Tokenizer Resources Monitor : Type}.
Context {TreeCache_dataset : AsyncDataset World TreeCache (AudioTextDict Features)}.
Variable zeros_1_1 : Features.
Variable logger_info : string -> World -> World.
Variable logger_exception : string -> World -> World.

(** C8.  [ProcessedAudioCache.load] fails with [FileNotFoundError], and
    builds no cache object, when no ledger exists at the directory (with
    [TreeCache.load] as the specification describes it); a corrupt ledger
    surfaces as the corruption error; and whatever [TreeCache.load] does,
    an exception of it other than [FileNotFoundError] is logged and raised
    again unchanged. *)
Theorem load_errors (cache_dir : string) (w : World) :
  (forall ledger_at : World -> string -> ledger TreeCache,
     ledger_at w cache_dir = NoLedger ->
     load zeros_1_1 (TreeCache_load_spec ledger_at) logger_exception cache_dir w
     = (Raise (FileNotFoundError (cache_dir ++ " is not a complete cache")), w)) /\
  (forall ledger_at : World -> string -> ledger TreeCache,
     ledger_at w cache_dir = UnreadableLedger ->
     load zeros_1_1 (TreeCache_load_spec ledger_at) logger_exception cache_dir w
     = (Raise (CorruptionError cache_dir),
        logger_exception "error loading cache" w)) /\
  (forall (TreeCache_load : string -> AudioTextDict Features -> M World TreeCache)
          (e : exn) (w' : World),
     TreeCache_load cache_dir (AudioTextDict_exemplar zeros_1_1) w = (Raise e, w') ->
     is_FileNotFoundError e = false ->
     load zeros_1_1 TreeCache_load logger_exception cache_dir w
     = (Raise e, logger_exception "error loading cache" w')).
Proof.
  assert (Hgen : forall (TreeCache_load : string -> AudioTextDict Features -> M World TreeCache) e w',
    TreeCache_load cache_dir (AudioTextDict_exemplar zeros_1_1) w = (Raise e, w') ->
    load zeros_1_1 TreeCache_load logger_exception cache_dir w
    = if is_FileNotFoundError e
      then (Raise (FileNotFoundError (cache_dir ++ " is not a complete cache")), w')
      else (Raise e, logger_exception "error loading cache" w')).
  { intros tl e w' H. unfold load, try_except, bind. rewrite H.
    destruct (is_FileNotFoundError e); reflexivity. }
  split; [| split].
  - intros ledger_at H.
    rewrite (Hgen _ (FileNotFoundError cache_dir) w); [reflexivity |].
    unfold TreeCache_load_spec. rewrite H. reflexivity.
  - intros ledger_at H.
    rewrite (Hgen _ (CorruptionError cache_dir) w); [reflexivity |].
    unfold TreeCache_load_spec. rewrite H. reflexivity.
  - intros tl e w' H He. rewrite (Hgen _ _ _ H), He. reflexivity.
Qed.

(** When [TreeCache.load] returns a cache, [load] returns its wrapper and
    nothing else happens. *)
Lemma load_ok (TreeCache_load : string -> AudioTextDict Features -> M World TreeCache)
    (cache_dir : string) (w w' : World) (c : TreeCache) :
  TreeCache_load cache_dir (AudioTextDict_exemplar zeros_1_1) w = (Ok c, w') ->
  load zeros_1_1 TreeCache_load logger_exception cache_dir w
  = (Ok {| cache := c |}, w').
Proof. intros H. unfold load, try_except, bind, ret. rewrite H. reflexivity. Qed.

Variable build_or_load_cache :
  string -> Source -> BatchAudioProcessor FeatureExtractor Tokenizer Resources ->
  bool -> list Monitor -> M World TreeCache.
Variable is_finished : TreeCache -> World -> bool.
Variable feature_extractor_of : ProcessorMixin -> FeatureExtractor.

(** C9.  [ProcessedAudioCache] adds nothing to the wrapped [TreeCache]:
    [async_len], [final_length_is_known], [is_finite], [current_len] and
    [get_batch] give, in every world and for every argument, the outcome
    and the world the method of the wrapped cache gives; [load] returns
    the wrapper of what [TreeCache.load] returns; and [build_or_load] runs
    [build_or_load_cache] on a [BatchAudioProcessor] made from its
    arguments and wraps the cache it returns, or fails as it fails. *)
Theorem wrapper_delegates (self : ProcessedAudioCache TreeCache) (w : World) :
  async_len self w = async_len (cache self) w /\
  final_length_is_known self w = final_length_is_known (cache self) w /\
  is_finite self w = is_finite (cache self) w /\
  current_len self w = current_len (cache self) w /\
  (forall indices, get_batch self indices w = get_batch (cache self) indices w) /\
  (forall (TreeCache_load : string -> AudioTextDict Features -> M World TreeCache)
          cache_dir,
     fst (load zeros_1_1 TreeCache_load logger_exception cache_dir w)
     = match TreeCache_load cache_dir (AudioTextDict_exemplar zeros_1_1) w with
       | (Ok c, _) => Ok {| cache := c |}
       | (Raise e, _) =>
           if is_FileNotFoundError e
           then Raise (FileNotFoundError (cache_dir ++ " is not a complete cache"))
           else Raise e
       end) /\
  (forall cache_dir source processor tokenizer enforce_bos enforce_eos batch_size
          monitors await_finished override_resources max_length,
     fst (build_or_load build_or_load_cache is_finished logger_info
            feature_extractor_of cache_dir source processor tokenizer enforce_bos
            enforce_eos batch_size monitors await_finished override_resources
            max_length w)
     = match build_or_load_cache cache_dir source
               (BatchAudioProcessor_init feature_extractor_of processor tokenizer
                  enforce_bos enforce_eos batch_size override_resources max_length
                  true)
               await_finished (monitors_or_empty monitors) w with
       | (Ok c, _) => Ok {| cache := c |}
       | (Raise e, _) => Raise e
       end).
Proof.
  repeat split.
  - apply bind_ret_r.
  - apply bind_ret_r.
  - apply bind_ret_r.
  - intros indices. apply bind_ret_r.
  - intros tl cache_dir. unfold load, try_except, bind, ret, raise.
    destruct (tl _ _ w) as [[c | e] w']; [reflexivity |].
    destruct (is_FileNotFoundError e); reflexivity.
  - intros. unfold build_or_load, bind.
    destruct (build_or_load_cache _ _ _ _ _ w) as [[c | e] w']; [| reflexivity].
    destruct (is_finished c w'); reflexivity.
Qed.

End ProcessedAudioCache.

Example load_toy_disk :
  let load := load (TreeCache := nat) (0, 0) (TreeCache_load_spec toy_ledger_at) toy_logger in
  load "cache/train" toy_disk = (Ok {| cache := 7%nat |}, toy_disk) /\
  load "cache/validation" toy_disk
  = (Raise (FileNotFoundError "cache/validation is not a complete cache"), toy_disk) /\
  load "cache/broken" toy_disk
  = (Raise (CorruptionError "cache/broken"), (fst toy_disk, ["error loading cache"])).
Proof. vm_compute. repeat split; reflexivity. Qed.

Lemma load_errors_witness :
  load (TreeCache := nat) (0, 0) (TreeCache_load_spec toy_ledger_at) toy_logger
    "cache/validation" toy_disk
  = (Raise (FileNotFoundError "cache/validation is not a complete cache"), toy_disk) /\
  load (TreeCache := nat) (0, 0) (TreeCache_load_spec toy_ledger_at) toy_logger
    "cache/broken" toy_disk
  = (Raise (CorruptionError "cache/broken"), toy_logger "error loading cache" toy_disk).
Proof.
  split.
  - apply (proj1 (load_errors (0, 0) toy_logger "cache/validation" toy_disk)
             toy_ledger_at).
    reflexivity.
  - apply (proj2 (proj2 (load_errors (0, 0) toy_logger "cache/broken" toy_disk))
             (TreeCache_load_spec toy_ledger_at) (CorruptionError "cache/broken")
             toy_disk);
      reflexivity.
Defined.

End AudioSpec.


(** ** More on the permutation *)
Module PrpExtra.
Import Prp PrpDomain PrpDraws PrpSpec.

(** *** The resampling loop *)

Lemma rel_prime_gcd (a b : Z) : rel_prime a b -> Z.gcd a b = 1.
Proof.
  intros [Ha Hb Hmax]. apply Z.gcd_unique; [lia | assumption | assumption |].
  exact Hmax.
Qed.

Lemma gcd_rel_prime (a b : Z) : Z.gcd a b = 1 -> rel_prime a b.
Proof.
  intros H. constructor; [apply Z.divide_1_l | apply Z.divide_1_l |].
  intros x Ha Hb. rewrite <- H. apply Z.gcd_greatest; assumption.
Qed.

Section FirstExit.
Context {S : Type} (cond_fun : S -> bool) (body_fun : S -> S).

(** The loop runs the body exactly as many times as there are leading
    iterates that satisfy the condition. *)
Lemma while_loop_first_exit (n fuel : nat) (s : S) :
  (forall m, (m < n)%nat -> cond_fun (Nat.iter m body_fun s) = true) ->
  cond_fun (Nat.iter n body_fun s) = false ->
  while_loop fuel cond_fun body_fun s
  = if (n <=? fuel)%nat then Some (Nat.iter n body_fun s) else None.
Proof.
  revert fuel s. induction n as [| n IH]; intros fuel s Hbefore Hexit.
  - simpl in Hexit. destruct fuel; simpl; rewrite Hexit; reflexivity.
  - assert (H0 : cond_fun s = true) by (apply (Hbefore 0%nat); lia).
    destruct fuel as [| fuel]; simpl while_loop; rewrite H0.
    + reflexivity.
    + rewrite (IH fuel (body_fun s)).
      * rewrite <- Nat.iter_succ_r. reflexivity.
      * intros m Hm. rewrite <- Nat.iter_succ_r. apply Hbefore. lia.
      * rewrite <- Nat.iter_succ_r. exact Hexit.
Qed.
End FirstExit.

Section Resampling.
Context {Key : Type} (split : Key -> Key * Key) (randint : Key -> Z -> Z -> Z).

Local Abbreviation draw := (draw split randint).

(** X1.  The multiplier that [__init__] stores is the first draw of the
    stream that is coprime to the length.  If the first [m] draws are not
    coprime and the next one is, construction returns exactly when it is
    allowed at least [m] passes through the loop body, and then it stores
    the length, the key, that draw as the multiplier, and the offset drawn
    with the second half of the key. *)
Theorem init_first_coprime_draw (n : Z) (key : Key) (m fuel : nat) :
  (forall i, (i < m)%nat -> Z.gcd (fst (draw n key i)) n <> 1) ->
  Z.gcd (fst (draw n key m)) n = 1 ->
  __init__ split randint fuel n key
  = if (m <=? fuel)%nat
    then Some {| length := n; prng_key := key;
                 _a := fst (draw n key m);
                 _b := randint (snd (split key)) 0 n |}
    else None.
Proof.
  intros Hbad Hgood. unfold __init__, draw in *.
  destruct (split key) as [a_key b_key]; simpl fst in *; simpl snd in *.
  rewrite (while_loop_first_exit _ _ m).
  - destruct (m <=? fuel)%nat; [| reflexivity].
    destruct (Nat.iter m _ _) as [a k]. reflexivity.
  - intros i Hi. unfold cond. apply negb_true_iff, Z.eqb_neq, Hbad, Hi.
  - unfold cond. apply negb_false_iff, Z.eqb_eq, Hgood.
Qed.

(** X2.  For a prime length nothing is ever resampled: with a generator that
    answers within [[minval, maxval)], construction returns without a single
    pass through the loop body and the multiplier is the first draw. *)
Theorem init_prime_length (n : Z) (key : Key) (fuel : nat) :
  (forall k lo hi, lo < hi -> lo <= randint k lo hi < hi) ->
  prime n ->
  __init__ split randint fuel n key
  = Some {| length := n; prng_key := key;
            _a := randint (fst (split key)) 1 n;
            _b := randint (snd (split key)) 0 n |}.
Proof.
  intros Hrange Hprime.
  assert (Hn : 1 < n) by (destruct Hprime; assumption).
  unfold __init__. destruct (split key) as [a_key b_key]; simpl fst; simpl snd.
  rewrite (while_loop_first_exit _ _ 0 fuel).
  - reflexivity.
  - intros i Hi. lia.
  - simpl. unfold cond. simpl. apply negb_false_iff, Z.eqb_eq, rel_prime_gcd.
    destruct Hprime as [_ Hrel]. apply Hrel. apply Hrange. lia.
Qed.

End Resampling.

Lemma init_first_coprime_draw_witness :
  __init__ lcg_split lcg_randint 5 10 0
  = if (1 <=? 5)%nat
    then Some {| length := 10; prng_key := 0;
                 _a := fst (PrpDraws.draw lcg_split lcg_randint 10 0 1);
                 _b := lcg_randint (snd (lcg_split 0)) 0 10 |}
    else None.
Proof.
  apply (init_first_coprime_draw lcg_split lcg_randint 10 0 1 5).
  - intros i Hi. assert (i = 0%nat) as -> by lia. vm_compute. discriminate.
  - reflexivity.
Defined.

Lemma prime_7 : prime 7.
Proof.
  apply prime_intro; [lia |].
  intros k Hk. apply gcd_rel_prime.
  assert (k = 1 \/ k = 2 \/ k = 3 \/ k = 4 \/ k = 5 \/ k = 6) as
    [-> | [-> | [-> | [-> | [-> | ->]]]]] by lia; reflexivity.
Qed.

Lemma init_prime_length_witness :
  __init__ lcg_split lcg_randint 0 7 3
  = Some {| length := 7; prng_key := 3;
            _a := lcg_randint (fst (lcg_split 3)) 1 7;
            _b := lcg_randint (snd (lcg_split 3)) 0 7 |}.
Proof.
  apply (init_prime_length lcg_split lcg_randint 7 3 0);
    [exact lcg_randint_range | exact prime_7].
Defined.

(** *** Batched calls *)

Lemma affine_int_bound {Key : Type} (p : Permutation Key) (x : Z) :
  0 < length p -> 0 <= affine_int p x < length p.
Proof. intros H. unfold affine_int. apply Z.mod_pos_bound. exact H. Qed.

Lemma affine_elt_bound {Key : Type} (d : dtype) (p : Permutation Key) (x : Z) :
  0 < length p <= 2 ^ 31 -> 0 <= affine_elt d p x < length p.
Proof.
  intros H. unfold affine_elt.
  pose proof (Z.mod_pos_bound (wrap d (wrap d (_a p * x) + _b p)) (length p)
                ltac:(lia)) as Hm.
  rewrite wrap_small; [exact Hm |].
  assert (2 ^ 31 <= 2 ^ (bits d - 1)) by (destruct d; simpl; lia).
  lia.
Qed.

(** An invertible multiplier makes the exact affine map a bijection of
    [range(length)]. *)
Lemma affine_int_range_bijection {Key : Type} (p : Permutation Key) :
  0 < length p -> Z.gcd (_a p) (length p) = 1 ->
  List.NoDup (map (affine_int p) (range (length p))) /\
  (forall y, In y (map (affine_int p) (range (length p))) <-> 0 <= y < length p).
Proof.
  intros Hlen Hg.
  assert (Hnodup : List.NoDup (map (affine_int p) (range (length p)))).
  { apply NoDup_map_inj_on; [| apply NoDup_range].
    intros i j Hi Hj. rewrite in_range in Hi, Hj.
    unfold affine_int. apply affine_mod_inj; auto. }
  assert (Hincl : incl (map (affine_int p) (range (length p))) (range (length p))).
  { intros y Hy. apply in_map_iff in Hy as (i & <- & _).
    apply in_range, affine_int_bound, Hlen. }
  split; [exact Hnodup |]. intros y. split.
  - intros Hy. apply in_range, Hincl, Hy.
  - intros Hy. apply in_range in Hy. revert y Hy.
    apply NoDup_length_incl; [exact Hnodup | | exact Hincl].
    now rewrite length_map.
Qed.

Section Batched.
Context {Key : Type}.

(** X3.  A batched call agrees with the scalar call wherever no overflow
    can occur.  If the length is a value of the element type of the array,
    the stored multiplier and offset satisfy the invariant of [__init__]
    and [a * (length - 1) + b] fits the element type, then the call on a
    [jnp] or [np] array of valid indices returns the array, of the same
    kind, element type and size, of the values the scalar call returns on
    each element. *)
Theorem call_batched_agrees (d : dtype) (p : Permutation Key) (xs : list Z) :
  length p < 2 ^ (bits d - 1) ->
  1 <= _a p < length p -> 0 <= _b p < length p ->
  _a p * (length p - 1) + _b p < 2 ^ (bits d - 1) ->
  (forall x, In x xs -> 0 <= x < length p) ->
  exists ys : list Z,
    __call__ p (JnpArray d xs) = Ok (JnpArray d ys) /\
    __call__ p (NpArray d xs) = Ok (NpArray d ys) /\
    map (fun x => __call__ p (Scalar x)) xs = map (fun y => Ok (Scalar y)) ys /\
    Datatypes.length ys = Datatypes.length xs.
Proof.
  intros Hrep Ha Hb Hfit Hall.
  assert (Hlen : 0 < length p <= 2 ^ (bits d - 1)) by lia.
  destruct (call_batched_exact d p xs Hlen Ha Hb Hfit Hall) as [Hj Hn].
  exists (map (affine_int p) xs). repeat split; try assumption.
  - rewrite map_map. apply map_ext_in. intros x Hx.
    rewrite call_scalar_in_range by auto. reflexivity.
  - apply length_map.
Qed.

(** X4.  On [int64] arrays nothing overflows for any length up to [2 ^ 31]:
    with the invariant of [__init__], the call on an [int64] array of valid
    indices returns exactly [(a * x + b) mod length] for each element. *)
Theorem call_int64_exact (p : Permutation Key) (xs : list Z) :
  length p <= 2 ^ 31 ->
  1 <= _a p < length p -> 0 <= _b p < length p ->
  (forall x, In x xs -> 0 <= x < length p) ->
  __call__ p (NpArray int64 xs)
  = Ok (NpArray int64 (map (fun x => (_a p * x + _b p) mod length p) xs)) /\
  __call__ p (JnpArray int64 xs)
  = Ok (JnpArray int64 (map (fun x => (_a p * x + _b p) mod length p) xs)).
Proof.
  intros Hlen Ha Hb Hall.
  assert (Hfit : _a p * (length p - 1) + _b p < 2 ^ (bits int64 - 1)).
  { change (2 ^ (bits int64 - 1)) with (2 ^ 31 * 2 ^ 31 * 2).
    assert (_a p * (length p - 1) + _b p < length p * length p) by nia.
    assert (length p * length p <= 2 ^ 31 * 2 ^ 31) by nia.
    lia. }
  assert (Hl : 0 < length p <= 2 ^ (bits int64 - 1)).
  { change (2 ^ (bits int64 - 1)) with (2 ^ 31 * 2 ^ 31 * 2). lia. }
  destruct (call_batched_exact int64 p xs Hl Ha Hb Hfit Hall) as [Hj Hn].
  split; assumption.
Qed.

(** X5.  Whatever a call returns is again a valid argument.  When the
    length, the multiplier and the offset are values of [int32] (and so of
    every element type), every element of a returned scalar or array lies in
    [[0, length)], also when the array arithmetic has overflowed, so the
    permutation can be applied to its own output. *)
Theorem call_result_in_range (p : Permutation Key) (ix r : indices) :
  fits int32 (length p) -> fits int32 (_a p) -> fits int32 (_b p) ->
  __call__ p ix = Ok r ->
  (forall y, In y (elems r) -> 0 <= y < length p) /\
  exists r', __call__ p r = Ok r'.
Proof.
  intros [_ Hlen'] _ _ Hcall. change (2 ^ (bits int32 - 1)) with (2 ^ 31) in Hlen'.
  assert (Hlen : length p <= 2 ^ 31) by lia.
  assert (Hin : forall x, In x (elems ix) -> 0 <= x < length p).
  { unfold __call__ in Hcall. destruct (out_of_bounds p ix) eqn:E; [discriminate |].
    intros x Hx.
    destruct (Z_lt_dec x 0) as [Hlt | Hge];
      [| destruct (Z_le_dec (length p) x) as [Hle | Hgt]; [| lia]].
    - assert (out_of_bounds p ix = true) by (apply out_of_bounds_spec; eauto).
      congruence.
    - assert (out_of_bounds p ix = true) by (apply out_of_bounds_spec; eauto).
      congruence. }
  rewrite (call_in_range p ix Hin) in Hcall. injection Hcall as <-.
  assert (Hout : forall y, In y (elems (affine p ix)) -> 0 <= y < length p).
  { destruct ix as [i | d xs | d xs]; simpl; intros y Hy.
    - destruct Hy as [<- | []]. apply affine_int_bound.
      specialize (Hin i (or_introl eq_refl)). lia.
    - apply in_map_iff in Hy as (x & <- & Hx). apply affine_elt_bound.
      specialize (Hin x Hx). lia.
    - apply in_map_iff in Hy as (x & <- & Hx). apply affine_elt_bound.
      specialize (Hin x Hx). lia. }
  split; [exact Hout |].
  exists (affine p (affine p ix)). apply call_in_range. exact Hout.
Qed.

(** X6.  A permutation of non-positive length accepts no index at all: a
    call returns only on an array without elements, which it returns
    unchanged; every scalar and every non-empty array raises [IndexError].
    For an array the length, multiplier and offset are taken to be values
    of its element type. *)
Theorem call_nonpositive_length (p : Permutation Key) (ix : indices) :
  operands_fit p ix ->
  length p <= 0 ->
  (elems ix = [] -> __call__ p ix = Ok ix) /\
  (elems ix <> [] -> __call__ p ix = Raise (IndexError ix (length p))).
Proof.
  intros _ Hlen. split.
  - intros Hnil. destruct ix as [i | d xs | d xs]; simpl in Hnil; subst;
      [discriminate | reflexivity | reflexivity].
  - intros Hne. unfold __call__.
    assert (out_of_bounds p ix = true) as ->; [| reflexivity].
    apply out_of_bounds_spec.
    destruct (elems ix) as [| x l] eqn:E; [congruence |].
    exists x. split; [left; reflexivity | lia].
Qed.

(** X7.  The batched call is a bijection as well, wherever no overflow can
    occur: with a length that is a value of the element type, the invariant
    of [__init__] and [a * (length - 1) + b] fitting the element type, the
    call on the array [arange(length)] returns an array that holds every
    integer of [[0, length)] exactly once. *)
Theorem call_batched_bijection (d : dtype) (p : Permutation Key) :
  length p < 2 ^ (bits d - 1) ->
  Z.gcd (_a p) (length p) = 1 ->
  1 <= _a p < length p -> 0 <= _b p < length p ->
  _a p * (length p - 1) + _b p < 2 ^ (bits d - 1) ->
  exists ys : list Z,
    __call__ p (JnpArray d (range (length p))) = Ok (JnpArray d ys) /\
    List.NoDup ys /\
    (forall y, In y ys <-> 0 <= y < length p).
Proof.
  intros Hrep Hg Ha Hb Hfit.
  assert (Hlen : 0 < length p <= 2 ^ (bits d - 1)) by lia.
  destruct (call_batched_exact d p (range (length p)) Hlen Ha Hb Hfit) as [Hj _].
  { intros x Hx. apply in_range. exact Hx. }
  destruct (affine_int_range_bijection p) as [Hnd Hiff]; [lia | exact Hg |].
  eauto.
Qed.

End Batched.

Lemma call_batched_agrees_witness :
  let p := {| length := 10; prng_key := 0; _a := 7; _b := 7 |} in
  exists ys : list Z,
    __call__ p (JnpArray int32 [0; 3; 9]) = Ok (JnpArray int32 ys) /\
    __call__ p (NpArray int32 [0; 3; 9]) = Ok (NpArray int32 ys) /\
    map (fun x => __call__ p (Scalar x)) [0; 3; 9] = map (fun y => Ok (Scalar y)) ys /\
    Datatypes.length ys = 3%nat.
Proof.
  apply (call_batched_agrees int32 {| length := 10; prng_key := 0; _a := 7; _b := 7 |}
           [0; 3; 9]); simpl; lia.
Defined.

Lemma call_int64_exact_witness :
  let p := {| length := 100000; prng_key := 5000; _a := 70011; _b := 70017 |} in
  __call__ p (NpArray int64 [99999; 0])
  = Ok (NpArray int64 (map (fun x => (70011 * x + 70017) mod 100000) [99999; 0])) /\
  __call__ p (JnpArray int64 [99999; 0])
  = Ok (JnpArray int64 (map (fun x => (70011 * x + 70017) mod 100000) [99999; 0])).
Proof.
  apply (call_int64_exact
           {| length := 100000; prng_key := 5000; _a := 70011; _b := 70017 |}
           [99999; 0]); simpl; lia.
Defined.

Lemma call_result_in_range_witness :
  let p := {| length := 100000; prng_key := 5000; _a := 70011; _b := 70017 |} in
  (forall y, In y (elems (JnpArray int32 [65414])) -> 0 <= y < 100000) /\
  exists r', __call__ p (JnpArray int32 [65414]) = Ok r'.
Proof.
  apply (call_result_in_range
           {| length := 100000; prng_key := 5000; _a := 70011; _b := 70017 |}
           (JnpArray int32 [99999]) (JnpArray int32 [65414]));
    [unfold fits; simpl; lia | unfold fits; simpl; lia | unfold fits; simpl; lia
    | reflexivity].
Defined.

Lemma call_nonpositive_length_witness :
  let p := {| length := 0; prng_key := 0; _a := 1; _b := 0 |} in
  (elems (JnpArray int32 [5]) = [] ->
   __call__ p (JnpArray int32 [5]) = Ok (JnpArray int32 [5])) /\
  (elems (JnpArray int32 [5]) <> [] ->
   __call__ p (JnpArray int32 [5]) = Raise (IndexError (JnpArray int32 [5]) 0)).
Proof.
  apply (call_nonpositive_length {| length := 0; prng_key := 0; _a := 1; _b := 0 |}
           (JnpArray int32 [5])); unfold operands_fit, fits; simpl; lia.
Defined.

Lemma call_batched_bijection_witness :
  let p := {| length := 10; prng_key := 0; _a := 7; _b := 7 |} in
  exists ys : list Z,
    __call__ p (JnpArray int32 (range 10)) = Ok (JnpArray int32 ys) /\
    List.NoDup ys /\
    (forall y, In y ys <-> 0 <= y < 10).
Proof.
  apply (call_batched_bijection int32
           {| length := 10; prng_key := 0; _a := 7; _b := 7 |});
    simpl; try lia; reflexivity.
Defined.

End PrpExtra.

(** ** More on the audio processor *)
Module AudioExtra.
Import Audio AudioSpec.

Local Open Scope string_scope.

Section Debatch.
Context {Features : Type}.

(** The loop at offset [i]: it succeeds exactly when the feature rows reach
    as far as the texts do, and then pairs them position by position. *)
Lemma debatch_ok_iff (audio_features : list Features) (texts : list TextFeatures)
    (i : nat) :
  (i + Datatypes.length texts <= Datatypes.length audio_features)%nat \/ texts = [] ->
  exists out, debatch audio_features i texts = Ok out /\
    Datatypes.length out = Datatypes.length texts /\
    forall k text, texts !! k = Some text ->
      exists row, audio_features !! (i + k)%nat = Some row /\
        out !! k = Some {| input_features := row;
                           input_ids := tf_input_ids text;
                           attention_mask := tf_attention_mask text |}.
Proof.
  revert i. induction texts as [| text rest IH]; intros i Hlen; simpl.
  - exists []. repeat split. intros k text Hk. rewrite lookup_nil in Hk. discriminate.
  - destruct Hlen as [Hlen | Hnil]; [| discriminate]. simpl in Hlen.
    destruct (audio_features !! i) as [row |] eqn:Hrow.
    2: { apply lookup_ge_None in Hrow. lia. }
    destruct (IH (S i)) as (out & Hout & Hl & Hk); [left; lia |].
    rewrite Hout. eexists. split; [reflexivity |]. split; [simpl; lia |].
    intros [| k] text' Hlook; simpl in Hlook.
    + injection Hlook as <-. exists row. rewrite Nat.add_0_r. auto.
    + destruct (Hk k text' Hlook) as (row' & Hr & Ho).
      exists row'. rewrite <- Hr, <- Ho. split; [f_equal; lia | reflexivity].
Qed.

Lemma debatch_short (audio_features : list Features) (texts : list TextFeatures)
    (i : nat) :
  (Datatypes.length audio_features < i + Datatypes.length texts)%nat ->
  (i <= Datatypes.length audio_features)%nat ->
  exists msg, debatch audio_features i texts = Raise (IndexError msg).
Proof.
  revert i. induction texts as [| text rest IH]; intros i Hlen Hi; simpl in *.
  - lia.
  - destruct (audio_features !! i) as [row |] eqn:Hrow; [| eauto].
    apply lookup_lt_Some in Hrow.
    destruct (IH (S i)) as (msg & ->); [lia | lia |]. eauto.
Qed.

(** X8.  The debatching loop of [BatchAudioProcessor.__call__] succeeds when
    the feature extractor has returned at least as many rows as the
    tokenizer returned texts.  The output then has one record per text, and
    record [k] holds row [k] of the audio features with the token ids and
    the attention mask of text [k]; feature rows beyond the last text are
    left out. *)
Theorem debatch_pairs_by_position (audio_features : list Features)
    (texts : list TextFeatures) :
  (Datatypes.length texts <= Datatypes.length audio_features)%nat ->
  exists out, debatch audio_features 0 texts = Ok out /\
    Datatypes.length out = Datatypes.length texts /\
    forall k text, texts !! k = Some text ->
      exists row, audio_features !! k = Some row /\
        out !! k = Some {| input_features := row;
                           input_ids := tf_input_ids text;
                           attention_mask := tf_attention_mask text |}.
Proof.
  intros Hlen. apply (debatch_ok_iff audio_features texts 0). left. simpl. exact Hlen.
Qed.

(** X9.  When the tokenizer has returned more texts than the feature
    extractor returned rows, the debatching loop ends in [IndexError] (the
    row of the first text without one is out of bounds) and no partial
    output is returned. *)
Theorem debatch_missing_rows (audio_features : list Features)
    (texts : list TextFeatures) :
  (Datatypes.length audio_features < Datatypes.length texts)%nat ->
  exists msg, debatch audio_features 0 texts = Raise (IndexError msg).
Proof.
  intros Hlen. apply debatch_short; simpl; lia.
Qed.

End Debatch.

Lemma debatch_pairs_by_position_witness :
  exists out,
    debatch [10; 20; 30] 0
      [ {| tf_input_ids := [1]; tf_attention_mask := [1] |};
        {| tf_input_ids := [2; 3]; tf_attention_mask := [1; 1] |} ] = Ok out /\
    Datatypes.length out = 2%nat /\
    forall k text,
      [ {| tf_input_ids := [1]; tf_attention_mask := [1] |};
        {| tf_input_ids := [2; 3]; tf_attention_mask := [1; 1] |} ] !! k = Some text ->
      exists row, [10; 20; 30] !! k = Some row /\
        out !! k = Some {| input_features := row;
                           input_ids := tf_input_ids text;
                           attention_mask := tf_attention_mask text |}.
Proof.
  apply (debatch_pairs_by_position [10; 20; 30]
           [ {| tf_input_ids := [1]; tf_attention_mask := [1] |};
             {| tf_input_ids := [2; 3]; tf_attention_mask := [1; 1] |} ]).
  simpl. lia.
Defined.

Lemma debatch_missing_rows_witness :
  exists msg,
    debatch [10] 0
      [ {| tf_input_ids := [1]; tf_attention_mask := [1] |};
        {| tf_input_ids := [2; 3]; tf_attention_mask := [1; 1] |} ]
    = Raise (IndexError msg).
Proof.
  apply (debatch_missing_rows [10]
           [ {| tf_input_ids := [1]; tf_attention_mask := [1] |};
             {| tf_input_ids := [2; 3]; tf_attention_mask := [1; 1] |} ]).
  simpl. lia.
Defined.

(** *** The whole call *)

(** A set of size one read back from the list it was made of. *)
Lemma rates_singleton (rates : list Z) :
  size (list_to_set rates : gset Z) = 1%nat ->
  exists r, (list_to_set rates : gset Z) = {[ r ]} /\ forall x, In x rates -> x = r.
Proof.
  intros Hsize. destruct (size_1_elem_of _ Hsize) as [r Hr].
  apply leibniz_equiv in Hr. exists r. split; [exact Hr |].
  intros x Hx. apply list_elem_of_In in Hx.
  assert (x ∈ (list_to_set rates : gset Z)) as Hin by (apply elem_of_list_to_set; exact Hx).
  rewrite Hr in Hin. apply elem_of_singleton in Hin. exact Hin.
Qed.

(** A list of integers of [int32] is converted as it is. *)
Lemma int32_array_ok (xs : list Z) :
  (forall x, In x xs -> - 2 ^ 31 <= x < 2 ^ 31) -> int32_array xs = Ok xs.
Proof.
  intros H. unfold int32_array.
  assert (forallb (fun x : Z => (- 2 ^ 31 <=? x)%Z && (x <? 2 ^ 31)%Z) xs = true) as ->;
    [| reflexivity].
  apply forallb_forall. intros x Hx. specialize (H x Hx).
  apply andb_true_iff. split; [apply Z.leb_le | apply Z.ltb_lt]; lia.
Qed.

Lemma int32_text_features_ok (texts : list TextFeatures) :
  (forall text, In text texts ->
     (forall x, In x (tf_input_ids text) -> - 2 ^ 31 <= x < 2 ^ 31) /\
     (forall x, In x (tf_attention_mask text) -> - 2 ^ 31 <= x < 2 ^ 31)) ->
  int32_text_features texts = Ok texts.
Proof.
  induction texts as [| [ids mask] rest IH]; intros H; simpl; [reflexivity |].
  destruct (H _ (or_introl eq_refl)) as [Hids Hmask]; simpl in *.
  rewrite (int32_array_ok ids Hids), (int32_array_ok mask Hmask).
  rewrite IH by (intros; apply H; right; assumption). reflexivity.
Qed.

(** A token id that is not an integer of [int32] stops the conversion. *)
Example int32_text_features_overflow :
  int32_text_features
    [ {| tf_input_ids := [1; 2]; tf_attention_mask := [1; 1] |};
      {| tf_input_ids := [2147483648]; tf_attention_mask := [1] |} ]
  = Raise (OtherError "OverflowError" "Python integer out of bounds for int32").
Proof. reflexivity. Qed.

Section WholeCall.
Context {Audio Features FeatureExtractor Tokenizer Resources : Type}.
Variable extract_features :
  FeatureExtractor -> list Audio -> Z -> result (list Features).
Variable tokenize :
  BatchTokenizer Tokenizer Resources -> list string -> result (list TextFeatures).

Local Abbreviation call := (__call__ extract_features tokenize).
Local Abbreviation audio_of := (map (fun item : Audio * Z * string => fst (fst item))).
Local Abbreviation text_of := (map (snd : Audio * Z * string -> string)).

(** Below the assertion: a non-empty batch of one rate goes on to the
    collaborators with that rate. *)
Lemma call_standardized
    (self : BatchAudioProcessor FeatureExtractor Tokenizer Resources)
    (batch : list (Audio * Z * string)) (r : Z) :
  batch <> [] ->
  (forall x, In x batch -> snd (fst x) = r) ->
  call self batch
  = extract_and_tokenize extract_features tokenize self (audio_of batch) r (text_of batch).
Proof.
  intros Hne Hall.
  assert (Hset : (list_to_set (map (fun item : Audio * Z * string => snd (fst item)) batch)
                  : gset Z) = {[ r ]}).
  { apply rates_uniform.
    - destruct batch; [congruence | discriminate].
    - intros x Hx. apply in_map_iff in Hx as (item & <- & Hitem). auto. }
  unfold __call__. destruct batch as [| item batch']; [congruence |].
  cbv zeta. rewrite Hset.
  rewrite decide_True by apply size_singleton.
  unfold set_pop. rewrite elements_singleton. reflexivity.
Qed.

(** X10.  On a non-empty batch of one sampling rate [r], if the feature
    extractor returns one row per audio clip and the tokenizer one entry per
    text, with token ids and attention masks that are integers of [int32],
    [__call__] asks the feature extractor (with all clips and the rate [r])
    and then the tokenizer (with all texts), once each, and returns one
    record per item of the batch, in the order of the batch: record [k]
    holds feature row [k] and the token ids and attention mask of text
    [k]. *)
Theorem call_one_record_per_item
    (self : BatchAudioProcessor FeatureExtractor Tokenizer Resources)
    (batch : list (Audio * Z * string)) (r : Z)
    (rows : list Features) (texts : list TextFeatures) :
  batch <> [] ->
  (forall x, In x batch -> snd (fst x) = r) ->
  extract_features (feature_extractor self) (audio_of batch) r = Ok rows ->
  tokenize (bt self) (text_of batch) = Ok texts ->
  Datatypes.length rows = Datatypes.length batch ->
  Datatypes.length texts = Datatypes.length batch ->
  (forall text, In text texts ->
     (forall x, In x (tf_input_ids text) -> - 2 ^ 31 <= x < 2 ^ 31) /\
     (forall x, In x (tf_attention_mask text) -> - 2 ^ 31 <= x < 2 ^ 31)) ->
  exists out,
    call self batch
    = ([FeatureExtraction (audio_of batch) r; Tokenization (text_of batch)], Ok out) /\
    Datatypes.length out = Datatypes.length batch /\
    forall k row text, rows !! k = Some row -> texts !! k = Some text ->
      out !! k = Some {| input_features := row;
                         input_ids := tf_input_ids text;
                         attention_mask := tf_attention_mask text |}.
Proof.
  intros Hne Hall Hfe Htok Hrows Htexts Hint.
  pose proof (call_standardized self batch r Hne Hall) as Hcall.
  destruct (debatch_ok_iff rows texts 0) as (out & Hout & Hlen & Hk); [left; simpl; lia |].
  exists out. split; [| split].
  - rewrite Hcall. unfold extract_and_tokenize.
    rewrite Hfe, Htok, (int32_text_features_ok texts Hint), Hout. reflexivity.
  - lia.
  - intros k row text Hrow Htext.
    destruct (Hk k text Htext) as (row' & Hrow' & Ho). simpl in Hrow'. congruence.
Qed.

(** X11.  [__call__] never reaches a collaborator with a batch of mixed
    sampling rates, and never reaches the tokenizer unless feature
    extraction has returned.  The calls it makes are none at all; or one
    feature extraction, of all clips at the rate every item carries, that
    raised; or that feature extraction, which returned, followed by one
    tokenization of all texts. *)
Theorem call_trace_discipline
    (self : BatchAudioProcessor FeatureExtractor Tokenizer Resources)
    (batch : list (Audio * Z * string)) :
  fst (call self batch) = [] \/
  exists r, (forall x, In x batch -> snd (fst x) = r) /\
    ((fst (call self batch) = [FeatureExtraction (audio_of batch) r] /\
      exists e, extract_features (feature_extractor self) (audio_of batch) r = Raise e /\
                snd (call self batch) = Raise e) \/
     (fst (call self batch)
        = [FeatureExtraction (audio_of batch) r; Tokenization (text_of batch)] /\
      exists rows, extract_features (feature_extractor self) (audio_of batch) r = Ok rows)).
Proof.
  destruct batch as [| item batch']; [left; reflexivity |].
  set (batch := item :: batch').
  destruct (decide (size (list_to_set (map (fun x : Audio * Z * string => snd (fst x)) batch)
                            : gset Z) = 1%nat)) as [Hsize | Hsize].
  - right. destruct (rates_singleton _ Hsize) as (r & Hset & Hall).
    exists r. assert (Hall' : forall x, In x batch -> snd (fst x) = r).
    { intros x Hx. apply Hall. apply in_map_iff. eauto. }
    split; [exact Hall' |].
    rewrite (call_standardized self batch r ltac:(discriminate) Hall').
    unfold extract_and_tokenize.
    destruct (extract_features _ _ _) as [rows | e] eqn:Hfe.
    + right. split; [| eauto]. destruct (tokenize _ _); reflexivity.
    + left. split; [reflexivity |]. eauto.
  - left. unfold __call__. fold batch. cbv zeta.
    rewrite decide_False by exact Hsize. reflexivity.
Qed.

End WholeCall.

Lemma call_one_record_per_item_witness :
  exists out,
    __call__ toy_extract toy_tokenize toy_processor
      [([1; 2; 3], 16000, "a b"); ([4; 5], 16000, "c")]
    = ([FeatureExtraction [[1; 2; 3]; [4; 5]] 16000; Tokenization ["a b"; "c"]], Ok out) /\
    Datatypes.length out = 2%nat /\
    forall k row text,
      [(16000, 3); (16000, 2)] !! k = Some row ->
      [ {| tf_input_ids := [3]; tf_attention_mask := [1] |};
        {| tf_input_ids := [1]; tf_attention_mask := [1] |} ] !! k = Some text ->
      out !! k = Some {| input_features := row;
                         input_ids := tf_input_ids text;
                         attention_mask := tf_attention_mask text |}.
Proof.
  apply (call_one_record_per_item toy_extract toy_tokenize toy_processor
           [([1; 2; 3], 16000, "a b"); ([4; 5], 16000, "c")] 16000
           [(16000, 3); (16000, 2)]
           [ {| tf_input_ids := [3]; tf_attention_mask := [1] |};
             {| tf_input_ids := [1]; tf_attention_mask := [1] |} ]);
    try reflexivity; [discriminate | |].
  - intros x [<- | [<- | []]]; reflexivity.
  - intros text [<- | [<- | []]]; simpl; split; intros x [<- | []]; lia.
Defined.

End AudioExtra.

(** ** The dataset configuration *)
Module AudioConfigSpec.
Import Audio AudioConfig.

Local Open Scope string_scope.

Section Config.
Context {World TreeCache Features ProcessorMixin FeatureExtractor Tokenizer Resources
         HFDataSource UserMonitor : Type}.
Variable braceexpand : string -> result (list string).
Variable glob : string -> M World (list string).
Variable WrappedHFDataSource :
  string -> string -> option string -> bool -> M World HFDataSource.
Variable shard_names : HFDataSource -> list string.
Variable load_dataset_has_item :
  string -> option string -> bool -> string -> M World bool.
Variable the_processor : AudioIODatasetConfig -> M World ProcessorMixin.
Variable the_tokenizer : AudioIODatasetConfig -> M World Tokenizer.
Variable path_join : string -> string -> string.
Variable path_basename : string -> string.
Variable logger_info : string -> World -> World.
Variable logger_warning : string -> World -> World.
Variable logger_exception : string -> World -> World.
Variable zeros_1_1 : Features.
Variable TreeCache_load : string -> AudioTextDict Features -> M World TreeCache.
Variable build_or_load_cache_fn :
  string -> ShardedDataSource HFDataSource ->
  BatchAudioProcessor FeatureExtractor Tokenizer Resources ->
  bool -> list (MetricsMonitor UserMonitor) -> M World TreeCache.
Variable is_finished : TreeCache -> World -> bool.
Variable feature_extractor_of : ProcessorMixin -> FeatureExtractor.

Local Abbreviation urls_for_split := (urls_for_split braceexpand glob).
Local Abbreviation get_shard_source :=
  (get_shard_source braceexpand glob WrappedHFDataSource shard_names logger_warning).
Local Abbreviation build_or_load_cache :=
  (build_or_load_cache braceexpand glob WrappedHFDataSource shard_names the_processor
     the_tokenizer path_join path_basename logger_info logger_warning logger_exception
     zeros_1_1 TreeCache_load build_or_load_cache_fn is_finished feature_extractor_of).
Local Abbreviation train_set :=
  (train_set braceexpand glob WrappedHFDataSource shard_names the_processor
     the_tokenizer path_join path_basename logger_info logger_warning logger_exception
     zeros_1_1 TreeCache_load build_or_load_cache_fn is_finished feature_extractor_of).
Local Abbreviation validation_sets :=
  (validation_sets braceexpand glob WrappedHFDataSource shard_names
     load_dataset_has_item the_processor
     the_tokenizer path_join path_basename logger_info logger_warning logger_exception
     zeros_1_1 TreeCache_load build_or_load_cache_fn is_finished feature_extractor_of).

(** *** Expanding urls *)

(** Urls without a star are kept as they are and the file system is not
    asked. *)
Lemma for_each_no_star (urls : list string) (w : World) :
  (forall u, In u urls -> contains_star u = false) ->
  for_each (fsspec_expand_glob glob) urls w = (Ok urls, w).
Proof.
  induction urls as [| u urls IH]; intros Hstar; simpl; [reflexivity |].
  unfold bind at 1. unfold fsspec_expand_glob at 1.
  rewrite (Hstar u) by (left; reflexivity). unfold ret at 1.
  unfold bind. rewrite IH by (intros; apply Hstar; right; assumption).
  reflexivity.
Qed.

Lemma for_each_patterns_no_star (pats : list string) (expansions : list (list string))
    (w : World) :
  Forall2 (fun pat expanded => braceexpand pat = Ok expanded) pats expansions ->
  (forall u, In u (concat expansions) -> contains_star u = false) ->
  for_each (fun pat =>
              match braceexpand pat with
              | Ok expanded => for_each (fsspec_expand_glob glob) expanded
              | Raise e => raise e
              end) pats w
  = (Ok (concat expansions), w).
Proof.
  intros Hall. induction Hall as [| pat expanded pats expansions Hpat _ IH];
    intros Hstar; simpl; [reflexivity |].
  unfold bind at 1. rewrite Hpat.
  rewrite for_each_no_star by (intros; apply Hstar; simpl; apply in_or_app; auto).
  unfold bind. rewrite IH by (intros; apply Hstar; simpl; apply in_or_app; auto).
  reflexivity.
Qed.

(** X12.  [urls_for_split] consults the file system only for urls with a
    star.  If brace expansion succeeds on every url configured for the
    split ("train" or "validation") and no expanded url contains a star,
    the result is the concatenation of the expansions, in order, whatever
    the file system holds, and the world is left as it was. *)
Theorem urls_for_split_without_star (self : AudioDatasetSourceConfig) (split : string)
    (urls : list string) (expansions : list (list string)) (w : World) :
  (split = "train" /\ urls = train_urls self) \/
  (split = "validation" /\ urls = validation_urls self) ->
  Forall2 (fun pat expanded => braceexpand pat = Ok expanded) urls expansions ->
  (forall u, In u (concat expansions) -> contains_star u = false) ->
  urls_for_split self split w = (Ok (concat expansions), w).
Proof.
  intros Hsplit Hexp Hstar. unfold AudioConfig.urls_for_split.
  destruct Hsplit as [[-> ->] | [-> ->]]; simpl; unfold bind at 1, ret at 1;
    apply for_each_patterns_no_star; assumption.
Qed.

(** *** Building the source *)

(** X13.  Without a HuggingFace id, a split other than "train" and
    "validation" makes [get_shard_source] raise
    [ValueError("Unknown split ...")], before any url is expanded and
    without touching the world. *)
Theorem get_shard_source_unknown_split (self : AudioDatasetSourceConfig)
    (split : string) (w : World) :
  id self = None ->
  split <> "train" -> split <> "validation" ->
  get_shard_source self split w = (Raise (ValueError ("Unknown split " ++ split)), w).
Proof.
  intros Hid Htrain Hval. unfold AudioConfig.get_shard_source. rewrite Hid.
  unfold AudioConfig.urls_for_split, bind, raise.
  rewrite decide_False by exact Htrain. rewrite decide_False by exact Hval.
  reflexivity.
Qed.

(** X14.  With a HuggingFace id, a [ValueError] of the data source
    constructor whose message starts with "Bad split" is turned into the
    answer [None] (and a warning is logged); every other exception of the
    constructor, a [ValueError] with another message included, reaches the
    caller unchanged. *)
Theorem get_shard_source_bad_split (self : AudioDatasetSourceConfig) (split : string)
    (the_id : string) (e : exn) (w w' : World) :
  id self = Some the_id ->
  WrappedHFDataSource the_id split (name self) (stream self) w = (Raise e, w') ->
  get_shard_source self split w
  = match e with
    | ValueError msg =>
        if String.prefix "Bad split" msg
        then (Ok None,
              logger_warning ("Splits " ++ split ++ " not found for " ++ the_id ++ " "
                              ++ str_of_optional (name self)) w')
        else (Raise e, w')
    | _ => (Raise e, w')
    end.
Proof.
  intros Hid Hctor. unfold AudioConfig.get_shard_source. rewrite Hid.
  unfold bind, try_except. rewrite Hctor.
  destruct e as [msg | msg | msg | msg | msg | cls msg]; try reflexivity.
  destruct (String.prefix "Bad split" msg); reflexivity.
Qed.

(** X15.  [get_shard_source] never returns an empty source.  A source it
    returns is a mapped HuggingFace source with at least one shard, or a url
    source with at least one url; either carries the text key, audio key
    and sampling rate of the configuration. *)
Theorem get_shard_source_nonempty (self : AudioDatasetSourceConfig) (split : string)
    (source : ShardedDataSource HFDataSource) (w w' : World) :
  get_shard_source self split w = (Ok (Some source), w') ->
  match source with
  | MappedHFDataSource ds tk ak sr =>
      shard_names ds <> [] /\ tk = text_key self /\ ak = audio_key self
      /\ sr = sampling_rate self
  | AudioTextUrlDataSource urls tk ak sr =>
      urls <> [] /\ tk = text_key self /\ ak = audio_key self
      /\ sr = sampling_rate self
  end.
Proof.
  unfold AudioConfig.get_shard_source. destruct (id self) as [the_id |].
  - unfold bind, try_except.
    destruct (WrappedHFDataSource _ _ _ _ w) as [[ds | e] w1].
    + unfold ret. destruct (shard_names ds) eqn:Hs; simpl; intros [= <- <-].
      rewrite Hs. repeat split. discriminate.
    + destruct e as [msg | msg | msg | msg | msg | cls msg]; unfold raise;
        try discriminate.
      destruct (String.prefix "Bad split" msg); discriminate.
  - unfold bind. destruct (AudioConfig.urls_for_split _ _ _ _ w) as [[urls | e] w1];
      [| discriminate].
    unfold ret. destruct urls; simpl; intros [= <- <-]. repeat split. discriminate.
Qed.

(** *** Loading or building the cache of a split *)

Lemma load_raises (cache_dir : string) (e : exn) (w w' : World) :
  TreeCache_load cache_dir (AudioTextDict_exemplar zeros_1_1) w = (Raise e, w') ->
  load zeros_1_1 TreeCache_load logger_exception cache_dir w
  = if is_FileNotFoundError e
    then (Raise (FileNotFoundError (cache_dir ++ " is not a complete cache")), w')
    else (Raise e, logger_exception "error loading cache" w').
Proof.
  intros H. unfold load, try_except, bind. rewrite H.
  destruct (is_FileNotFoundError e); reflexivity.
Qed.

(** X16.  A cache that can be loaded is never rebuilt.  When [TreeCache.load]
    returns a cache for the directory of the split, [build_or_load_cache]
    returns its wrapper and does nothing else: no source is constructed, no
    processor or tokenizer is loaded, nothing is logged and the cache
    builder is not called, whatever those would do. *)
Theorem build_or_load_cache_existing (self : AudioIODatasetConfig) (split : string)
    (batch_size : Z) (monitors : monitors_arg UserMonitor) (logger_name : option string)
    (c : TreeCache) (w w' : World) :
  TreeCache_load (path_join (cache_dir (task_config self)) split)
    (AudioTextDict_exemplar zeros_1_1) w = (Ok c, w') ->
  build_or_load_cache self split batch_size monitors logger_name w
  = (Ok (Some {| cache := c |}), w').
Proof.
  intros H. unfold AudioConfig.build_or_load_cache.
  unfold load, try_except, bind, ret. rewrite H. reflexivity.
Qed.

(** X17.  A cache that fails to load for another reason than a missing
    ledger is not rebuilt either.  When [TreeCache.load] raises an exception
    other than [FileNotFoundError], [build_or_load_cache] logs it and raises
    it unchanged, without looking for a source or calling the cache
    builder. *)
Theorem build_or_load_cache_load_error (self : AudioIODatasetConfig) (split : string)
    (batch_size : Z) (monitors : monitors_arg UserMonitor) (logger_name : option string)
    (e : exn) (w w' : World) :
  TreeCache_load (path_join (cache_dir (task_config self)) split)
    (AudioTextDict_exemplar zeros_1_1) w = (Raise e, w') ->
  is_FileNotFoundError e = false ->
  build_or_load_cache self split batch_size monitors logger_name w
  = (Raise e, logger_exception "error loading cache" w').
Proof.
  intros H He. unfold AudioConfig.build_or_load_cache.
  rewrite (load_raises _ _ _ _ H), He, He. reflexivity.
Qed.

(** X18.  When the ledger is missing and a source is found,
    [build_or_load_cache] hands the build to the cache builder with the
    directory [os.path.join(cache_dir, split)], the source, a
    [BatchAudioProcessor] made from the processor, the tokenizer and the
    flags of the configuration, and [await_finished] true for the split
    "validation" and false for every other split; it returns the wrapper of
    the cache the builder returns, or fails as the builder fails. *)
Theorem build_or_load_cache_builds (self : AudioIODatasetConfig) (split : string)
    (batch_size : Z) (monitors : monitors_arg UserMonitor) (logger_name : option string)
    (e : exn) (source : ShardedDataSource HFDataSource)
    (p : ProcessorMixin) (t : Tokenizer) (w w1 w2 w3 w4 : World) :
  TreeCache_load (path_join (cache_dir (task_config self)) split)
    (AudioTextDict_exemplar zeros_1_1) w = (Raise e, w1) ->
  is_FileNotFoundError e = true ->
  get_shard_source (source_config self) split w1 = (Ok (Some source), w2) ->
  the_processor self (logger_info ("Building cache for " ++ split ++ "...") w2)
  = (Ok p, w3) ->
  the_tokenizer self w3 = (Ok t, w4) ->
  exists installed : list (MetricsMonitor UserMonitor),
    fst (build_or_load_cache self split batch_size monitors logger_name w)
    = match build_or_load_cache_fn (path_join (cache_dir (task_config self)) split)
              source
              (BatchAudioProcessor_init feature_extractor_of p t
                 (enforce_bos (task_config self)) (enforce_eos (task_config self))
                 batch_size None (max_length (task_config self)) true)
              (if decide (split = "validation") then true else false)
              installed w4 with
      | (Ok c, _) => Ok (Some {| cache := c |})
      | (Raise e', _) => Raise e'
      end /\
    (monitors = MonitorsBool false -> installed = []) /\
    (forall l, monitors = MonitorsList l -> installed = l) /\
    (monitors = MonitorsBool true -> Datatypes.length installed = 2%nat).
Proof.
  intros Hload He Hsrc Hproc Htok.
  set (name := match logger_name with
               | Some (String c rest) => String c rest
               | _ => path_basename (cache_dir (task_config self))
               end).
  exists (monitors_or_empty
            (Some match monitors with
                  | MonitorsBool true =>
                      [LoggingMetricsMonitor
                         ("preprocessing/" ++ name ++ "/" ++ split) false;
                       LoggerMetricsMonitor
                         ("preprocessing." ++ name ++ "." ++ split)]
                  | MonitorsBool false => []
                  | MonitorsList l => l
                  end)).
  split.
  - unfold AudioConfig.build_or_load_cache.
    rewrite (load_raises _ _ _ _ Hload), He.
    unfold bind at 1. rewrite Hsrc.
    unfold bind at 1. rewrite Hproc.
    unfold bind at 1. rewrite Htok.
    unfold bind at 1, build_or_load. unfold bind at 1. fold name.
    destruct (build_or_load_cache_fn _ _ _ _ _ w4) as [[c | e'] w5]; [| reflexivity].
    destruct (is_finished c w5); reflexivity.
  - repeat split.
    + intros ->. reflexivity.
    + intros l ->. destruct l; reflexivity.
    + intros ->. reflexivity.
Qed.

(** X19.  Without a cache and without data there is no training set.  When
    the ledger of the "train" split is missing, no HuggingFace id is
    configured and the list of training urls is empty, [train_set] raises
    [ValueError("No training set!")]; the cache builder is not called. *)
Theorem train_set_no_data (self : AudioIODatasetConfig) (batch_size : Z)
    (monitors : monitors_arg UserMonitor) (e : exn) (w w' : World) :
  train_split (task_config self) = "train" ->
  id (source_config self) = None ->
  train_urls (source_config self) = [] ->
  TreeCache_load (path_join (cache_dir (task_config self)) "train")
    (AudioTextDict_exemplar zeros_1_1) w = (Raise e, w') ->
  is_FileNotFoundError e = true ->
  train_set self batch_size monitors w
  = (Raise (ValueError "No training set!"), logger_info "No data for train" w').
Proof.
  intros Hsplit Hid Hurls Hload He.
  unfold AudioConfig.train_set. rewrite Hsplit. unfold bind at 1.
  unfold AudioConfig.build_or_load_cache.
  rewrite (load_raises _ _ _ _ Hload), He.
  unfold bind at 1. unfold AudioConfig.get_shard_source. rewrite Hid.
  unfold bind at 1. unfold AudioConfig.urls_for_split. rewrite Hurls.
  reflexivity.
Qed.

(** X20.  With no validation urls and no HuggingFace id, [validation_sets]
    returns the empty mapping at once: nothing is loaded, built or
    logged. *)
Theorem validation_sets_not_configured (self : AudioIODatasetConfig)
    (monitors : monitors_arg UserMonitor) (w : World) :
  validation_urls (source_config self) = [] ->
  id (source_config self) = None ->
  validation_sets self monitors w = (Ok ∅, w).
Proof.
  intros Hurls Hid. unfold AudioConfig.validation_sets, _has_validation_set.
  rewrite Hurls, Hid. reflexivity.
Qed.

End Config.

(** *** Runs on the small configuration *)

Example toy_train_urls :
  toy_urls_for_split toy_source_config "train" toy_disk
  = (Ok ["gs://bucket/train-*.jsonl.0"; "gs://bucket/train-*.jsonl.1"; "local.jsonl"],
     toy_disk).
Proof. reflexivity. Qed.

Lemma urls_for_split_without_star_witness :
  toy_urls_for_split (toy_source_config_with None ["a.jsonl"; "b.jsonl"] []) "train" toy_disk
  = (Ok (concat [["a.jsonl"]; ["b.jsonl"]]), toy_disk).
Proof.
  unfold toy_urls_for_split.
  apply (urls_for_split_without_star toy_braceexpand toy_glob
           (toy_source_config_with None ["a.jsonl"; "b.jsonl"] []) "train"
           ["a.jsonl"; "b.jsonl"] [["a.jsonl"]; ["b.jsonl"]] toy_disk).
  - left. split; reflexivity.
  - repeat constructor.
  - intros u [<- | [<- | []]]; reflexivity.
Defined.

Lemma get_shard_source_unknown_split_witness :
  toy_get_shard_source toy_source_config "test" toy_disk
  = (Raise (ValueError "Unknown split test"), toy_disk).
Proof.
  unfold toy_get_shard_source.
  apply (get_shard_source_unknown_split toy_braceexpand toy_glob toy_hf
           (fun _ : unit => []) toy_logger toy_source_config "test" toy_disk);
    [reflexivity | discriminate | discriminate].
Defined.

Lemma get_shard_source_bad_split_witness :
  toy_get_shard_source (toy_source_config_with (Some "org/data") [] []) "dev" toy_disk
  = (Ok None, toy_logger "Splits dev not found for org/data None" toy_disk).
Proof.
  unfold toy_get_shard_source.
  apply (get_shard_source_bad_split toy_braceexpand toy_glob toy_hf
           (fun _ : unit => []) toy_logger
           (toy_source_config_with (Some "org/data") [] []) "dev" "org/data"
           (ValueError "Bad split dev") toy_disk toy_disk);
    reflexivity.
Defined.

Lemma get_shard_source_nonempty_witness :
  ["gs://bucket/train-*.jsonl.0"; "gs://bucket/train-*.jsonl.1"; "local.jsonl"] <> [] /\
  "text" = text_key toy_source_config /\ "audio" = audio_key toy_source_config /\
  16000 = sampling_rate toy_source_config.
Proof.
  apply (get_shard_source_nonempty toy_braceexpand toy_glob toy_hf
           (fun _ : unit => []) toy_logger toy_source_config "train"
           (AudioTextUrlDataSource
              ["gs://bucket/train-*.jsonl.0"; "gs://bucket/train-*.jsonl.1"; "local.jsonl"]
              "text" "audio" 16000)
           toy_disk toy_disk).
  reflexivity.
Defined.

Lemma build_or_load_cache_existing_witness :
  toy_build_or_load_cache (toy_config "cache") "train" 128 (MonitorsBool true) None toy_disk
  = (Ok (Some {| cache := 7%nat |}), toy_disk).
Proof.
  unfold toy_build_or_load_cache.
  apply build_or_load_cache_existing. reflexivity.
Defined.

Lemma build_or_load_cache_load_error_witness :
  toy_build_or_load_cache (toy_config "cache") "broken" 128 (MonitorsBool true) None toy_disk
  = (Raise (CorruptionError "cache/broken"), toy_logger "error loading cache" toy_disk).
Proof.
  unfold toy_build_or_load_cache.
  apply build_or_load_cache_load_error; reflexivity.
Defined.

Lemma build_or_load_cache_builds_witness :
  exists installed : list (MetricsMonitor unit),
    fst (toy_build_or_load_cache (toy_config "fresh") "train" 128 (MonitorsBool false) None
           toy_disk)
    = match toy_build "fresh/train"
              (AudioTextUrlDataSource
                 ["gs://bucket/train-*.jsonl.0"; "gs://bucket/train-*.jsonl.1";
                  "local.jsonl"] "text" "audio" 16000)
              (BatchAudioProcessor_init (fun _ : unit => tt) tt tt true true 128 None 448
                 true)
              false installed
              (toy_logger "Building cache for train..." toy_disk) with
      | (Ok c, _) => Ok (Some {| cache := c |})
      | (Raise e', _) => Raise e'
      end /\
    (@MonitorsBool unit false = MonitorsBool false -> installed = []) /\
    (forall l, @MonitorsBool unit false = MonitorsList l -> installed = l) /\
    (@MonitorsBool unit false = MonitorsBool true -> Datatypes.length installed = 2%nat).
Proof.
  unfold toy_build_or_load_cache.
  apply (build_or_load_cache_builds toy_braceexpand toy_glob toy_hf (fun _ : unit => [])
           (fun _ => ret tt) (fun _ => ret tt) toy_path_join (fun dir => dir)
           toy_logger toy_logger toy_logger (0, 0) (TreeCache_load_spec toy_ledger_at)
           toy_build (fun _ _ => true) (fun _ : unit => tt)
           (toy_config "fresh") "train" 128 (MonitorsBool false) None
           (FileNotFoundError "fresh/train")
           (AudioTextUrlDataSource
              ["gs://bucket/train-*.jsonl.0"; "gs://bucket/train-*.jsonl.1"; "local.jsonl"]
              "text" "audio" 16000)
           tt tt toy_disk toy_disk toy_disk
           (toy_logger "Building cache for train..." toy_disk)
           (toy_logger "Building cache for train..." toy_disk));
    reflexivity.
Defined.

Lemma train_set_no_data_witness :
  toy_train_set (toy_config_with None [] [] "fresh") 128 (MonitorsBool true) toy_disk
  = (Raise (ValueError "No training set!"), toy_logger "No data for train" toy_disk).
Proof.
  unfold toy_train_set.
  apply (train_set_no_data toy_braceexpand toy_glob toy_hf (fun _ : unit => [])
           (fun _ => ret tt) (fun _ => ret tt) toy_path_join (fun dir => dir)
           toy_logger toy_logger toy_logger (0, 0) (TreeCache_load_spec toy_ledger_at)
           toy_build (fun _ _ => true) (fun _ : unit => tt)
           (toy_config_with None [] [] "fresh") 128 (MonitorsBool true)
           (FileNotFoundError "fresh/train") toy_disk toy_disk);
    reflexivity.
Defined.

Lemma validation_sets_not_configured_witness :
  toy_validation_sets (toy_config "cache") (MonitorsBool true) toy_disk = (Ok ∅, toy_disk).
Proof.
  unfold toy_validation_sets.
  apply validation_sets_not_configured; reflexivity.
Defined.

End AudioConfigSpec.

(** ** Counting parameters *)
Module JaxUtilsSpec.
Import JaxUtils.

Local Abbreviation put := (fun (leaves : gmap Z leaf) (x : leaf) => <[leaf_id x := x]> leaves).

Lemma fold_put_lookup_inv (l : list leaf) (d : gmap Z leaf) (i : Z) (x : leaf) :
  fold_left put l d !! i = Some x -> (In x l /\ leaf_id x = i) \/ d !! i = Some x.
Proof.
  revert d. induction l as [| y l IH]; intros d H; simpl in *; [auto |].
  apply IH in H as [[Hin Hid] | H]; [auto |].
  destruct (decide (leaf_id y = i)) as [<- | Hne].
  - rewrite lookup_insert_eq in H. injection H as <-. auto.
  - rewrite lookup_insert_ne in H by exact Hne. auto.
Qed.

Lemma fold_put_lookup (l : list leaf) (d : gmap Z leaf) (x : leaf) :
  ids_name_objects l -> In x l -> fold_left put l d !! leaf_id x = Some x.
Proof.
  revert d. induction l as [| y l IH] using rev_ind; intros d Hwf Hin; [destruct Hin |].
  rewrite fold_left_app. simpl.
  destruct (decide (leaf_id y = leaf_id x)) as [Heq | Hne].
  - assert (y = x) as -> by (apply Hwf; auto using in_or_app, in_eq).
    apply lookup_insert_eq.
  - rewrite lookup_insert_ne by exact Hne.
    apply in_app_or in Hin as [Hin | [-> | []]]; [| congruence].
    apply IH; [| exact Hin].
    intros a b Ha Hb. apply Hwf; apply in_or_app; auto.
Qed.

Lemma count_fold_distinct (l : list leaf) :
  List.NoDup (map leaf_id l) ->
  map_fold (fun _ x total => size x + total) 0 (fold_left put l ∅)
  = fold_right Z.add 0 (map size l).
Proof.
  induction l as [| y l IH] using rev_ind; intros Hnd; [reflexivity |].
  rewrite fold_left_app. simpl.
  rewrite map_app in Hnd. simpl in Hnd.
  assert (Hnd' : List.NoDup (map leaf_id l) /\ ~ In (leaf_id y) (map leaf_id l)).
  { apply NoDup_remove in Hnd. rewrite app_nil_r in Hnd. exact Hnd. }
  destruct Hnd' as [Hl Hy].
  rewrite map_fold_insert_L.
  - rewrite IH by exact Hl. rewrite map_app, fold_right_app.
    generalize (map size l) as zs. intros zs.
    induction zs as [| z zs IHz]; cbn -[Z.add] in *; lia.
  - intros. lia.
  - destruct (fold_left put l ∅ !! leaf_id y) as [x |] eqn:E; [| reflexivity].
    apply fold_put_lookup_inv in E as [[Hin Hid] | E].
    + exfalso. apply Hy. rewrite <- Hid. apply in_map. exact Hin.
    + rewrite lookup_empty in E. discriminate.
Qed.

(** X21.  When the parameter leaves of a model are pairwise distinct
    objects, [parameter_count] is the sum of their sizes; leaves that are
    not parameters do not count. *)
Theorem parameter_count_distinct (tree_leaves : list leaf) :
  List.NoDup (map leaf_id (List.filter _is_param_leaf tree_leaves)) ->
  parameter_count tree_leaves
  = fold_right Z.add 0 (map size (List.filter _is_param_leaf tree_leaves)).
Proof.
  intros Hnd. unfold parameter_count, leaves_by_id.
  apply count_fold_distinct. exact Hnd.
Qed.

(** X22.  A leaf that occurs again is counted once.  If identities name
    objects among the leaves of a model, adding leaves that are already
    among them does not change [parameter_count]. *)
Theorem parameter_count_shared (tree_leaves again : list leaf) :
  ids_name_objects tree_leaves ->
  (forall x, In x again -> In x tree_leaves) ->
  parameter_count (tree_leaves ++ again) = parameter_count tree_leaves.
Proof.
  intros Hwf Hsub. unfold parameter_count. f_equal.
  assert (Hwf_f : forall l, (forall x, In x l -> In x tree_leaves) ->
                            ids_name_objects (List.filter _is_param_leaf l)).
  { intros l Hl x y Hx Hy. apply filter_In in Hx as [Hx _]. apply filter_In in Hy as [Hy _].
    apply Hwf; auto. }
  assert (Hall : forall x, In x (tree_leaves ++ again) -> In x tree_leaves).
  { intros x Hx. apply in_app_or in Hx as [Hx | Hx]; auto. }
  apply map_eq. intros i. unfold leaves_by_id.
  destruct (fold_left put (List.filter _is_param_leaf tree_leaves) ∅ !! i) as [x |] eqn:E1.
  - apply fold_put_lookup_inv in E1 as [[Hin <-] | E1];
      [| rewrite lookup_empty in E1; discriminate].
    apply fold_put_lookup; [apply Hwf_f; exact Hall |].
    apply filter_In in Hin as [Hin Hp]. apply filter_In. split; [| exact Hp].
    apply in_or_app. auto.
  - destruct (fold_left put (List.filter _is_param_leaf (tree_leaves ++ again)) ∅ !! i)
      as [y |] eqn:E2; [| reflexivity].
    apply fold_put_lookup_inv in E2 as [[Hin <-] | E2];
      [| rewrite lookup_empty in E2; discriminate].
    apply filter_In in Hin as [Hin Hp].
    rewrite fold_put_lookup in E1; [discriminate | apply Hwf_f; auto |].
    apply filter_In. split; [apply Hall; exact Hin | exact Hp].
Qed.

Lemma parameter_count_distinct_witness :
  parameter_count
    [ {| leaf_id := 1; _is_param_leaf := true; size := 12 |};
      {| leaf_id := 2; _is_param_leaf := false; size := 100 |};
      {| leaf_id := 3; _is_param_leaf := true; size := 30 |} ]
  = fold_right Z.add 0
      (map size
         (List.filter _is_param_leaf
            [ {| leaf_id := 1; _is_param_leaf := true; size := 12 |};
              {| leaf_id := 2; _is_param_leaf := false; size := 100 |};
              {| leaf_id := 3; _is_param_leaf := true; size := 30 |} ])).
Proof.
  apply (parameter_count_distinct
           [ {| leaf_id := 1; _is_param_leaf := true; size := 12 |};
             {| leaf_id := 2; _is_param_leaf := false; size := 100 |};
             {| leaf_id := 3; _is_param_leaf := true; size := 30 |} ]).
  simpl. repeat constructor; simpl; intuition discriminate.
Defined.

Lemma parameter_count_shared_witness :
  parameter_count
    ([ {| leaf_id := 1; _is_param_leaf := true; size := 12 |};
       {| leaf_id := 3; _is_param_leaf := true; size := 30 |} ]
     ++ [ {| leaf_id := 1; _is_param_leaf := true; size := 12 |} ])
  = parameter_count
      [ {| leaf_id := 1; _is_param_leaf := true; size := 12 |};
        {| leaf_id := 3; _is_param_leaf := true; size := 30 |} ].
Proof.
  apply (parameter_count_shared
           [ {| leaf_id := 1; _is_param_leaf := true; size := 12 |};
             {| leaf_id := 3; _is_param_leaf := true; size := 30 |} ]
           [ {| leaf_id := 1; _is_param_leaf := true; size := 12 |} ]).
  - intros x y [<- | [<- | []]] [<- | [<- | []]]; simpl; intros H;
      first [reflexivity | discriminate H].
  - intros x [<- | []]. left. reflexivity.
Defined.

End JaxUtilsSpec.

(** ** Construction over a generator with state *)
Module PrpAmbientSpec.
Import Prp.

Section Ambient.
Context {Key World : Type}.
Variable split : Key -> World -> (Key * Key) * World.
Variable randint : Key -> Z -> Z -> World -> Z * World.

(** The library answers by the key: the state it is called in does not
    change what [split] and [randint] return. *)
Hypothesis split_keyed : forall k w w', fst (split k w) = fst (split k w').
Hypothesis randint_keyed :
  forall k lo hi w w', fst (randint k lo hi w) = fst (randint k lo hi w').

(** The answers of the library in the state [w0], as functions of the key. *)
Local Abbreviation split_at w0 := (fun k => fst (split k w0)).
Local Abbreviation randint_at w0 := (fun k lo hi => fst (randint k lo hi w0)).






End Ambient.


End PrpAmbientSpec.
